(** * plot_(co)spectras.py: selection, merge and plotting of EddyPro (co)spectra

    A shallow embedding of [src/eddy_pro_files/(co)spectras/plot_(co)spectras.py].

    The script talks to four libraries: [glob] (directory search), [pandas]
    (tables), [statsmodels] (the lowess smoother) and [matplotlib] (drawing).
    The embedding keeps the script's own code as Rocq functions in a small
    exception-and-trace monad.  Every call that leaves the script for the file
    system, the smoother or the plotting library appends an [event] to the
    trace, so that what the script asks of its environment, and in which
    order, is an observable of a run.

    The table operations of pandas that the script relies on (header and row
    skipping, the missing-value filter, [query], [dropna], column assignment
    with index alignment, the row-wise median) are modelled as functions on
    an explicit [DataFrame].  The lexical layer of [read_csv] (line splitting,
    decimal notation, the typing of a column as numbers or as text) is
    outside the model: a file is given by its lines of fields as pandas
    types them, each field a text or a binary64 number, a text column
    holding numbers only where a value is missing.  The smoother, the power
    function of the C library and the answers of matplotlib to the calls
    that dress and save a figure are parameters of the [World]. *)

From Stdlib Require Import String Ascii ZArith Lia Bool Arith List.
From Stdlib Require Import Floats.PrimFloat.
From Stdlib Require Floats.SpecFloat Floats.FloatOps Floats.FloatAxioms.
From Stdlib Require Import Sorted Permutation.
Import ListNotations.

Set Warnings "-inexact-float".

Local Open Scope list_scope.
Local Open Scope string_scope.

(** ** Python values and exceptions *)

(** A table cell or label: a [str] or a [float].  A missing value is the
    float NaN, as in pandas. *)
Inductive value : Type :=
| VStr (s : string)
| VNum (x : float).

Definition NaN : value := VNum nan.

Definition isna (v : value) : bool :=
  match v with
  | VStr _ => false
  | VNum x => is_nan x
  end.

(** Equality of labels as a pandas [Index] sees it: floats by [==], and NaN
    labels match one another. *)
Definition label_eqb (a b : value) : bool :=
  match a, b with
  | VStr s, VStr t => String.eqb s t
  | VNum x, VNum y => (x =? y)%float || (is_nan x && is_nan y)
  | _, _ => false
  end.

Inductive exn : Type :=
| IndexError
| KeyError (key : string)
| NameError (name : string)
| TypeError
| ValueError
| EmptyDataError
| ParserError
| FileNotFoundError
| NotSubscriptable   (* TypeError for a Python float, IndexError for a
                        numpy scalar: what [f[5:13]] raises on a number *)
| ImplicitIndex.     (* no exception: the first data row is longer than the
                        header, pandas takes its leading fields as row
                        labels; such a file is outside the model *)

Inductive result (A : Type) : Type :=
| Ok (a : A)
| Raise (e : exn).
Arguments Ok {A} a.
Arguments Raise {A} e.

(** ** Tables *)

Record Series : Type := mkSeries {
  s_index : list value;
  s_values : list value
}.

(** A frame is kept column-wise, as pandas does: the row labels and an
    ordered list of labelled columns. *)
Record DataFrame : Type := mkFrame {
  index : list value;
  columns : list (value * list value)
}.

(** [pd.DataFrame()] *)
Definition empty_frame : DataFrame := mkFrame [] [].

Definition labels (df : DataFrame) : list value := map fst (columns df).

(** The cells of row [i], across all columns. *)
Definition row (df : DataFrame) (i : nat) : list value :=
  map (fun c => nth i (snd c) NaN) (columns df).

Definition nrows (df : DataFrame) : nat := length (index df).

Fixpoint filter_mask {A : Type} (mask : list bool) (l : list A) : list A :=
  match mask, l with
  | b :: mask', x :: l' =>
      if b then x :: filter_mask mask' l' else filter_mask mask' l'
  | _, _ => []
  end.

(** Boolean-mask row selection, [df[mask]]. *)
Definition select_rows (mask : list bool) (df : DataFrame) : DataFrame :=
  mkFrame (filter_mask mask (index df))
          (map (fun c => (fst c, filter_mask mask (snd c))) (columns df)).

(** [df[name]]: the first column carrying that label. *)
Definition getitem (df : DataFrame) (name : string) : result Series :=
  match find (fun c => label_eqb (fst c) (VStr name)) (columns df) with
  | Some c => Ok (mkSeries (index df) (snd c))
  | None => Raise (KeyError name)
  end.

(** *** read_csv *)

(** pandas' default spellings of a missing value. *)
Definition STR_NA_VALUES : list string :=
  [ "-1.#IND"; "1.#QNAN"; "1.#IND"; "-1.#QNAN"; "#N/A N/A"; "#N/A"; "N/A";
    "n/a"; "NA"; "#NA"; "NULL"; "null"; "NaN"; "-NaN"; "nan"; "-nan"; "" ].

(** The missing-value filter of [read_csv]: default spellings, and numbers
    equal to the [na_values] sentinel when one is given. *)
Definition na_filter (na_values : option float) (v : value) : value :=
  match v with
  | VStr s => if existsb (String.eqb s) STR_NA_VALUES then NaN else v
  | VNum x =>
      match na_values with
      | Some n => if (x =? n)%float then NaN else v
      | None => v
      end
  end.

Inductive skiprows_arg : Type :=
| SkipFirst (n : nat)          (* skiprows=n *)
| SkipList (l : list nat).     (* skiprows=[i, j, ...] *)

Definition apply_skiprows {A : Type} (sk : skiprows_arg) (lines : list A)
  : list A :=
  match sk with
  | SkipFirst n => skipn n lines
  | SkipList l =>
      map snd
        (filter (fun p => negb (existsb (Nat.eqb (fst p)) l))
                (combine (seq 0 (length lines)) lines))
  end.

Definition is_blank (line : list value) : bool :=
  match line with [] => true | _ => false end.

Fixpoint float_of_nat (n : nat) : float :=
  match n with
  | O => 0%float
  | S k => (float_of_nat k + 1)%float
  end.

(** [pd.read_csv(path, skiprows=..., index_col=0 or None, na_values=...)] on
    the lexed lines of a file.  The first line that is neither skipped nor
    blank is the header; short rows are padded with NaN; a later row longer
    than the header is a parser error, and a file whose first data row is
    longer than the header is not modelled.  With [index_col=0] the first
    column becomes the row labels and is no longer a column of the frame;
    the missing-value filter applies to it as to every other field.  Without
    it the rows are numbered from 0. *)
Definition read_csv (lines : list (list value)) (skiprows : skiprows_arg)
    (index_col0 : bool) (na_values : option float) : result DataFrame :=
  match filter (fun l => negb (is_blank l)) (apply_skiprows skiprows lines) with
  | [] => Raise EmptyDataError
  | header :: rows =>
      if (length header <? length (hd [] rows))%nat
      then Raise ImplicitIndex
      else if existsb (fun r => (length header <? length r)%nat) rows
      then Raise ParserError
      else
        let col j := map (fun r => na_filter na_values (nth j r NaN)) rows in
        if index_col0 then
          Ok (mkFrame (col 0)
                (map (fun p => (snd p, col (S (fst p))))
                     (combine (seq 0 (length (tl header))) (tl header))))
        else
          Ok (mkFrame (map (fun i => VNum (float_of_nat i))
                           (seq 0 (length rows)))
                (map (fun p => (snd p, col (fst p)))
                     (combine (seq 0 (length header)) header)))
  end.

(** *** query, dropna *)

Definition eq0 (v : value) : bool :=
  match v with
  | VStr _ => false
  | VNum x => (x =? 0)%float
  end.

(** [df.query('<name> == 0')] *)
Definition query_eq0 (df : DataFrame) (name : string) : result DataFrame :=
  match find (fun c => label_eqb (fst c) (VStr name)) (columns df) with
  | Some c => Ok (select_rows (map eq0 (snd c)) df)
  | None => Raise (NameError name)
  end.

(** Row [i] has no missing cell in any column. *)
Definition row_notna (df : DataFrame) (i : nat) : bool :=
  forallb (fun v => negb (isna v)) (row df i).

(** [df.dropna()] *)
Definition dropna (df : DataFrame) : DataFrame :=
  select_rows (map (row_notna df) (seq 0 (nrows df))) df.

(** *** Column assignment, [frame[key] = series] *)

Definition index_equals (a b : list value) : bool :=
  (length a =? length b)%nat &&
  forallb (fun p => label_eqb (fst p) (snd p)) (combine a b).

Fixpoint is_unique (idx : list value) : bool :=
  match idx with
  | [] => true
  | l :: idx' => negb (existsb (label_eqb l) idx') && is_unique idx'
  end.

Definition lookup_label (s : Series) (l : value) : value :=
  match find (fun p => label_eqb (fst p) l)
             (combine (s_index s) (s_values s)) with
  | Some p => snd p
  | None => NaN
  end.

(** The values of [s] laid out along the row labels [target], as column
    assignment does: taken as they are when the labels agree or the frame
    has no rows, looked up label by label otherwise (missing where [s] has
    no such label), which pandas refuses when [s] repeats a label. *)
Definition reindex (s : Series) (target : list value) : result (list value) :=
  if index_equals (s_index s) target then Ok (s_values s)
  else match target with
       | [] => Ok (s_values s)
       | _ =>
           if is_unique (s_index s) then Ok (map (lookup_label s) target)
           else Raise ValueError
       end.

Fixpoint set_column (cols : list (value * list value)) (key : value)
    (vals : list value) : list (value * list value) :=
  match cols with
  | [] => [(key, vals)]
  | c :: cols' =>
      if label_eqb (fst c) key then (fst c, vals) :: cols'
      else c :: set_column cols' key vals
  end.

(** A frame without row labels takes the labels of the first series that is
    assigned to it; columns it already has are laid out along them. *)
Definition ensure_valid_index (df : DataFrame) (s : Series) : DataFrame :=
  match index df with
  | [] =>
      mkFrame (s_index s)
              (map (fun c => (fst c, map (fun _ => NaN) (s_index s)))
                   (columns df))
  | _ => df
  end.

Definition setitem (df : DataFrame) (key : value) (s : Series)
  : result DataFrame :=
  let df1 := ensure_valid_index df s in
  match reindex s (index df1) with
  | Ok vals => Ok (mkFrame (index df1) (set_column (columns df1) key vals))
  | Raise e => Raise e
  end.

(** *** Row-wise median *)

Fixpoint insert_sorted (x : float) (l : list float) : list float :=
  match l with
  | [] => [x]
  | y :: l' => if (x <=? y)%float then x :: l else y :: insert_sorted x l'
  end.

Definition sort_floats (l : list float) : list float :=
  fold_right insert_sorted [] l.

(** Median of the numbers that are not NaN; NaN when there is none. *)
Definition nanmedian (xs : list float) : float :=
  let s := sort_floats (filter (fun x => negb (is_nan x)) xs) in
  let n := length s in
  match n with
  | O => nan
  | _ =>
      if Nat.odd n then nth (n / 2) s nan
      else ((nth (n / 2 - 1) s nan + nth (n / 2) s nan) / 2)%float
  end.

Fixpoint as_floats (vs : list value) : result (list float) :=
  match vs with
  | [] => Ok []
  | VStr _ :: _ => Raise TypeError
  | VNum x :: vs' =>
      match as_floats vs' with
      | Ok xs => Ok (x :: xs)
      | Raise e => Raise e
      end
  end.

Definition median_row (vs : list value) : result float :=
  match as_floats vs with
  | Ok xs => Ok (nanmedian xs)
  | Raise e => Raise e
  end.

Fixpoint map_result {A B : Type} (f : A -> result B) (l : list A)
  : result (list B) :=
  match l with
  | [] => Ok []
  | a :: l' =>
      match f a with
      | Raise e => Raise e
      | Ok b =>
          match map_result f l' with
          | Ok bs => Ok (b :: bs)
          | Raise e => Raise e
          end
      end
  end.

(** [df.median(axis=1).values]: one median per row label, missing cells
    skipped.  A text cell makes the reduction fail. *)
Definition median_axis1 (df : DataFrame) : result (list float) :=
  map_result (fun i => median_row (row df i)) (seq 0 (nrows df)).

(** ** Python string slicing *)

Definition adjust_index (len i : Z) : Z :=
  if (i <? 0)%Z then Z.max 0 (i + len) else Z.min i len.

(** [s[start:stop]] *)
Definition py_slice (s : string) (start stop : Z) : string :=
  let len := Z.of_nat (String.length s) in
  let a := adjust_index len start in
  let b := adjust_index len stop in
  substring (Z.to_nat a) (Z.to_nat (b - a)) s.

(** [s[p]], [None] where Python raises IndexError. *)
Definition py_index (s : string) (p : Z) : option ascii :=
  let len := Z.of_nat (String.length s) in
  if (p <? 0)%Z then
    if (0 <=? p + len)%Z then String.get (Z.to_nat (p + len)) s else None
  else String.get (Z.to_nat p) s.

(** The characters of [s] at those of the positions [ps] that exist. *)
Fixpoint chars_at (s : string) (ps : list Z) : string :=
  match ps with
  | [] => EmptyString
  | p :: ps' =>
      match py_index s p with
      | Some c => String c (chars_at s ps')
      | None => chars_at s ps'
      end
  end.

(** ** numpy.linspace *)

Definition set_last (l : list float) (x : float) : list float :=
  match l with
  | [] => []
  | _ => (removelast l ++ [x])%list
  end.

(** [np.linspace(start, stop, num)] with [endpoint=True]. *)
Definition linspace (start stop : float) (num : nat) : list float :=
  let div := (num - 1)%nat in
  let delta := (stop - start)%float in
  let y := map float_of_nat (seq 0 num) in
  let y :=
    match div with
    | O => map (fun yi => yi * delta)%float y
    | _ =>
        let step := (delta / float_of_nat div)%float in
        if (step =? 0)%float
        then map (fun yi => yi / float_of_nat div * delta)%float y
        else map (fun yi => yi * step)%float y
    end in
  let y := map (fun yi => yi + start)%float y in
  if (1 <? num)%nat then set_last y stop else y.

(** ** Events and the monad *)

Inductive plot_data : Type :=
| PlotSeries (idx : list value) (vals : list float)   (* plt.plot(series, ...) *)
| PlotXY (x y : list float).                          (* plt.plot(x, y, ...) *)

Inductive event : Type :=
| EvGlob (pathname : string)
| EvReadCsv (path : string)
| EvLowess (endog : list float) (exog : list value) (frac : float) (it : nat)
| EvFigure (num : nat)
| EvPlot (data : plot_data) (fmt : string) (alpha : option float)
         (label : string)
| EvXscale (s : string)
| EvYscale (s : string)
| EvXlabel (s : string)
| EvYlabel (s : string)
| EvLegend
| EvTightLayout
| EvSavefig (outfile : string) (dpi : nat) (bbox_inches : string)
| EvShow.

(** A computation yields the events it caused and a value or an exception. *)
Definition M (A : Type) : Type := list event * result A.

Definition ret {A : Type} (a : A) : M A := ([], Ok a).

Definition raise {A : Type} (e : exn) : M A := ([], Raise e).

Definition bind {A B : Type} (m : M A) (f : A -> M B) : M B :=
  match m with
  | (t, Raise e) => (t, Raise e)
  | (t, Ok a) => let r := f a in ((t ++ fst r)%list, snd r)
  end.

Definition emit (ev : event) : M unit := ([ev], Ok tt).

Definition lift {A : Type} (r : result A) : M A := ([], r).

(** [try: m  except IndexError: h] *)
Definition except_IndexError {A : Type} (m h : M A) : M A :=
  match m with
  | (t, Raise IndexError) => ((t ++ fst h)%list, snd h)
  | _ => m
  end.

Notation "x <- m ;; k" := (bind m (fun x => k))
  (at level 61, m at next level, right associativity).
Notation "m ;;; k" := (bind m (fun _ => k))
  (at level 61, right associativity).

Definition trace {A : Type} (m : M A) : list event := fst m.
Definition outcome {A : Type} (m : M A) : result A := snd m.

(** [l[0]] *)
Definition subscript0 {A : Type} (l : list A) : M A :=
  match l with
  | [] => raise IndexError
  | x :: _ => ret x
  end.

(** ** The environment of a run *)

Record World : Type := mkWorld {
  (** [glob.glob(pathname)]: the matching paths, in directory order *)
  glob : string -> list string;
  (** the lexed lines of the file at a path *)
  open_csv : string -> option (list (list value));
  (** [statsmodels...lowess(endog, exog, is_sorted=True, frac=, it=)] *)
  lowess : list float -> list value -> float -> nat
           -> result (list (float * float));
  (** [x ** y] on floats *)
  pow : float -> float -> float;
  (** a pyplot call that dresses or saves the current figure: given the
      calls made on that figure so far, it returns or raises *)
  pyplot : list event -> event -> result unit
}.

Section Script.

Variable W : World.

Definition glob_ (pathname : string) : M (list string) :=
  emit (EvGlob pathname) ;;; ret (glob W pathname).

Definition pd_read_csv (path : string) (skiprows : skiprows_arg)
    (index_col0 : bool) (na_values : option float) : M DataFrame :=
  emit (EvReadCsv path) ;;;
  match open_csv W path with
  | None => raise FileNotFoundError
  | Some lines => lift (read_csv lines skiprows index_col0 na_values)
  end.

Definition lowess_ (endog : list float) (exog : list value) (frac : float)
    (it : nat) : M (list (float * float)) :=
  emit (EvLowess endog exog frac it) ;;; lift (lowess W endog exog frac it).

(** ** The script *)

Definition get_good_files (ep_output_folder : string) : M (list value) :=
  (* read full_output file *)
  matches <- glob_ (ep_output_folder ++ "/**full_output*.csv*") ;;
  full_output_file <- subscript0 matches ;;
  df <- pd_read_csv full_output_file (SkipList [0; 2]%nat) false None ;;
  (* filter for Foken flag of 0 and return raw input filenames *)
  df <- lift (query_eq0 df "qc_co2_flux") ;;
  good_files <- lift (getitem df "filename") ;;
  ret (s_values good_files).

(** [f'{f[5:13]}-{f[-8:-4]}'] *)
Definition pattern_of (f : string) : string :=
  py_slice f 5 13 ++ "-" ++ py_slice f (-8) (-4).

Definition cospectra_glob (ep_output_folder pattern : string) : string :=
  ep_output_folder ++ "/eddypro_full_cospectra/*" ++ pattern ++ "*.csv".

(** One iteration of the loop of [merge_good_files]. *)
Definition merge_step (ep_output_folder : string)
    (acc : DataFrame * DataFrame) (f : value) : M (DataFrame * DataFrame) :=
  match f with
  | VNum _ => raise NotSubscriptable   (* a number cannot be sliced *)
  | VStr f =>
      let pattern := pattern_of f in
      (* for some reason not all qc = 0 timestamps have a full_spectra file *)
      found <- except_IndexError
                 (matches <- glob_ (cospectra_glob ep_output_folder pattern) ;;
                  full_sectra_file <- subscript0 matches ;;
                  ret (Some full_sectra_file))
                 (ret None) ;;
      match found with
      | None => ret acc                (* continue *)
      | Some full_sectra_file =>
          df <- pd_read_csv full_sectra_file (SkipFirst 12) true
                  (Some (-9999)%float) ;;
          let df := dropna df in
          spec <- lift (getitem df "f_nat*spec(ts)") ;;
          good_spectras <- lift (setitem (fst acc) (VStr pattern) spec) ;;
          cospec <- lift (getitem df "f_nat*cospec(w_ts)") ;;
          good_cospectras <- lift (setitem (snd acc) (VStr pattern) cospec) ;;
          ret (good_spectras, good_cospectras)
      end
  end.

Fixpoint merge_loop (ep_output_folder : string) (good_files : list value)
    (acc : DataFrame * DataFrame) : M (DataFrame * DataFrame) :=
  match good_files with
  | [] => ret acc
  | f :: rest =>
      acc' <- merge_step ep_output_folder acc f ;;
      merge_loop ep_output_folder rest acc'
  end.

(** [for f in tqdm(good_files): ...] from two empty frames; [tqdm] only
    reports progress. *)
Definition merge_good_files (good_files : list value)
    (ep_output_folder : string) : M (DataFrame * DataFrame) :=
  merge_loop ep_output_folder good_files (empty_frame, empty_frame).

(** [plt.figure] and [plt.plot] are handed a figure number, numeric
    sequences of equal length and a fixed format: they record what is to be
    drawn and are taken to return, the figure being a new one.  [fig] is
    the list of calls made on the current figure. *)
Definition draw (fig : list event) (call : event) : M (list event) :=
  emit call ;;; ret (fig ++ [call])%list.

(** The calls that set scales, labels, legend and layout or write the
    figure act on what has been drawn and may raise. *)
Definition plt (fig : list event) (call : event) : M (list event) :=
  emit call ;;; lift (pyplot W fig call) ;;; ret (fig ++ [call])%list.

(** [if outfile: plt.savefig(outfile, dpi=300, bbox_inches='tight')] *)
Definition save_if_desired (fig : list event) (outfile : option string)
  : M unit :=
  match outfile with
  | None => ret tt
  | Some "" => ret tt
  | Some o => plt fig (EvSavefig o 300 "tight") ;;; ret tt
  end.

Definition plot_spectras (df : DataFrame) (outfile : option string) : M unit :=
  (* plot data *)
  fig <- draw [] (EvFigure 1) ;;
  med <- lift (median_axis1 df) ;;
  fig <- draw fig (EvPlot (PlotSeries (index df) med) "k." (Some 0.05%float)
                          "median data with QC flag 0") ;;
  (* plot loess smoothed line *)
  med <- lift (median_axis1 df) ;;
  smoothed <- lowess_ med (index df) 0.01%float 0 ;;
  fig <- draw fig (EvPlot (PlotXY (map fst (skipn 40 smoothed))
                                  (map snd (skipn 40 smoothed)))
                          "b" None "lowess fit") ;;
  (* tweak plot *)
  fig <- plt fig (EvXscale "log") ;;
  fig <- plt fig (EvYscale "log") ;;
  fig <- plt fig (EvXlabel "f (Hz)") ;;
  fig <- plt fig (EvYlabel "spectra (T)") ;;
  fig <- plt fig EvLegend ;;
  fig <- plt fig EvTightLayout ;;
  (* save plot if desired *)
  save_if_desired fig outfile.

(** [.006*x**(-4/3)] *)
Definition ideal_slope (x : float) : float :=
  (0.006 * pow W x (-4 / 3))%float.

Definition plot_cospectras (df : DataFrame) (outfile : option string)
  : M unit :=
  (* plot data *)
  fig <- draw [] (EvFigure 2) ;;
  med <- lift (median_axis1 df) ;;
  fig <- draw fig (EvPlot (PlotSeries (index df) med) "k." (Some 0.05%float)
                          "median data with QC flag 0") ;;
  (* plot loess smoothed line *)
  med <- lift (median_axis1 df) ;;
  smoothed <- lowess_ med (index df) 0.05%float 0 ;;
  fig <- draw fig (EvPlot (PlotXY (map fst smoothed) (map snd smoothed))
                          "b" None "lowess fit") ;;
  (* plot ideal slope *)
  let x := linspace 0.2%float 5%float 50 in
  let y1 := map ideal_slope x in
  fig <- draw fig (EvPlot (PlotXY x y1) "r--" None "-4/3 slope") ;;
  (* tweak plot *)
  fig <- plt fig (EvXscale "log") ;;
  fig <- plt fig (EvYscale "log") ;;
  fig <- plt fig (EvXlabel "f (Hz)") ;;
  fig <- plt fig (EvYlabel "cospectra (w/T)") ;;
  fig <- plt fig EvLegend ;;
  fig <- plt fig EvTightLayout ;;
  (* save plot if desired *)
  save_if_desired fig outfile.

Definition ep_output : string :=
  "E:\flux_data_processing\10hz_data\MOFO_understory\ep_output\13m_canopy_height".

(** [plt.show()] is taken to return. *)
Definition main : M unit :=
  good_files <- get_good_files ep_output ;;
  tables <- merge_good_files good_files ep_output ;;
  plot_spectras (fst tables) None ;;;
  plot_cospectras (snd tables) None ;;;
  emit EvShow.

End Script.

(** ** A small world, for examples *)
Module Demo.

Definition folder : string := ep_output.

Definition full_output_path : string :=
  folder ++ "/eddypro_MOFO_full_output_2019-07-23T101500_adv.csv".

Definition spectra_path (pattern : string) : string :=
  folder ++ "/eddypro_full_cospectra/" ++ pattern ++ "_binned_cospectra.csv".

Definition full_output_lines : list (list value) :=
  [ [VStr "file_info"];
    [VStr "filename"; VStr "daytime"; VStr "qc_co2_flux"];
    [VStr ""; VStr "[1=daytime]"; VStr "[#]"];
    [VStr "MOFO_20190723_1200.dat"; VNum 1; VNum 0];
    [VStr "MOFO_20190723_1230.dat"; VNum 1; VNum 1];
    [VStr "MOFO_20190723_1300.dat"; VNum 1; VNum 0];
    [VStr "MOFO_20190723_1330.dat"; VNum 1; VNum 0] ].

Definition preamble : list (list value) := repeat [VStr "#"] 12.

Definition spectra_header : list value :=
  [VStr "natural_frequency"; VStr "f_nat*spec(ts)"; VStr "f_nat*cospec(w_ts)"].

Definition spectra_1200 : list (list value) :=
  (preamble ++
  [ spectra_header;
    [VNum 0.1; VNum 1.5; VNum 0.25];
    [VNum 0.2; VNum (-9999); VNum 0.5];
    [VNum 0.4; VNum 2.5; VNum 0.75] ])%list.

Definition spectra_1330 : list (list value) :=
  (preamble ++
  [ spectra_header;
    [VNum 0.1; VNum 3.5; VNum 1.25];
    [VNum 0.2; VNum 4.5; VNum 1.5];
    [VNum 0.4; VNum 5.5; VNum (-9999)] ])%list.

Definition world : World :=
  mkWorld
    (fun pathname =>
       if pathname =? folder ++ "/**full_output*.csv*" then [full_output_path]
       else if pathname =? cospectra_glob folder "20190723-1200"
       then [spectra_path "20190723-1200"]
       else if pathname =? cospectra_glob folder "20190723-1330"
       then [spectra_path "20190723-1330"]
       else [])
    (fun path =>
       if path =? full_output_path then Some full_output_lines
       else if path =? spectra_path "20190723-1200" then Some spectra_1200
       else if path =? spectra_path "20190723-1330" then Some spectra_1330
       else None)
    (fun endog exog frac it =>
       match as_floats exog with
       | Ok xs => Ok (combine xs endog)
       | Raise e => Raise e
       end)
    (fun x y => (1 / x)%float)
    (fun fig call => Ok tt).

(** The file names [get_good_files] returns in this world. *)
Definition good_files : list value :=
  [ VStr "MOFO_20190723_1200.dat"; VStr "MOFO_20190723_1300.dat";
    VStr "MOFO_20190723_1330.dat" ].

(** The two tables [merge_good_files] returns for them: the 13:00 record has
    no (co)spectra file, and each of the two files loses one row. *)
Definition good_spectras : DataFrame :=
  mkFrame [VNum 0.1; VNum 0.4]
    [ (VStr "20190723-1200", [VNum 1.5; VNum 2.5]);
      (VStr "20190723-1330", [VNum 3.5; NaN]) ].

Definition good_cospectras : DataFrame :=
  mkFrame [VNum 0.1; VNum 0.4]
    [ (VStr "20190723-1200", [VNum 0.25; VNum 0.75]);
      (VStr "20190723-1330", [VNum 1.25; NaN]) ].

End Demo.

(** ** A (co)spectra file with a sentinel in the frequency column *)
Module BadFreq.

Definition folder : string := ep_output.

Definition spectra_lines : list (list value) :=
  (Demo.preamble ++
  [ Demo.spectra_header;
    [VNum 0.1; VNum 1.5; VNum 0.25];
    [VNum (-9999); VNum 2.5; VNum 0.75];
    [VNum 0.4; VNum (-9999); VNum 0.9] ])%list.

Definition world : World :=
  mkWorld
    (fun pathname =>
       if pathname =? cospectra_glob folder "20190723-1200"
       then [Demo.spectra_path "20190723-1200"] else [])
    (fun path =>
       if path =? Demo.spectra_path "20190723-1200" then Some spectra_lines
       else None)
    (lowess Demo.world)
    (pow Demo.world)
    (pyplot Demo.world).

(** The frame [read_csv] makes of the file. *)
Definition raw : DataFrame :=
  mkFrame [VNum 0.1; NaN; VNum 0.4]
    [ (VStr "f_nat*spec(ts)", [VNum 1.5; VNum 2.5; NaN]);
      (VStr "f_nat*cospec(w_ts)", [VNum 0.25; VNum 0.75; VNum 0.9]) ].

End BadFreq.

(** ** A full_output file in which two records name the same raw file *)
Module Dup.

Definition folder : string := ep_output.

Definition full_output_lines : list (list value) :=
  [ [VStr "file_info"];
    [VStr "filename"; VStr "daytime"; VStr "qc_co2_flux"];
    [VStr ""; VStr "[1=daytime]"; VStr "[#]"];
    [VStr "MOFO_20190723_1200.dat"; VNum 1; VNum 0];
    [VStr "MOFO_20190723_1200.dat"; VNum 1; VNum 1] ].

Definition world : World :=
  mkWorld
    (fun pathname =>
       if pathname =? folder ++ "/**full_output*.csv*"
       then [Demo.full_output_path] else [])
    (fun path =>
       if path =? Demo.full_output_path then Some full_output_lines
       else None)
    (lowess Demo.world)
    (pow Demo.world)
    (pyplot Demo.world).

(** The table [read_csv] makes of the file. *)
Definition table : DataFrame :=
  mkFrame [VNum 0; VNum 1]
    [ (VStr "filename",
       [VStr "MOFO_20190723_1200.dat"; VStr "MOFO_20190723_1200.dat"]);
      (VStr "daytime", [VNum 1; VNum 1]);
      (VStr "qc_co2_flux", [VNum 0; VNum 1]) ].

End Dup.

(** ** A matplotlib that cannot lay out a figure without data *)
Module NoLayout.

Definition has_no_point (e : event) : bool :=
  match e with
  | EvPlot (PlotSeries [] []) _ _ _ => true
  | _ => false
  end.

Definition world : World :=
  mkWorld (glob Demo.world) (open_csv Demo.world) (lowess Demo.world)
    (pow Demo.world)
    (fun fig call =>
       match call with
       | EvTightLayout =>
           if existsb has_no_point fig then Raise ValueError else Ok tt
       | _ => Ok tt
       end).

End NoLayout.

(** ** A matplotlib that cannot write the figure *)
Module NoWrite.

Definition world : World :=
  mkWorld (glob Demo.world) (open_csv Demo.world) (lowess Demo.world)
    (pow Demo.world)
    (fun fig call =>
       match call with
       | EvSavefig _ _ _ => Raise FileNotFoundError
       | _ => Ok tt
       end).

End NoWrite.

(** ** A folder without a full_output file *)
Module NoOutput.

Definition world : World :=
  mkWorld (fun _ => []) (fun _ => None) (lowess Demo.world) (pow Demo.world)
    (pyplot Demo.world).

End NoOutput.

(** ** A full_output file without the flag column, and one without names *)
Module NoColumn.

Definition folder : string := ep_output.

Definition lines_without_flag : list (list value) :=
  [ [VStr "file_info"];
    [VStr "filename"; VStr "daytime"];
    [VStr ""; VStr "[1=daytime]"];
    [VStr "MOFO_20190723_1200.dat"; VNum 1] ].

Definition lines_without_filename : list (list value) :=
  [ [VStr "file_info"];
    [VStr "daytime"; VStr "qc_co2_flux"];
    [VStr "[1=daytime]"; VStr "[#]"];
    [VNum 1; VNum 0] ].

Definition world_with (lines : list (list value)) : World :=
  mkWorld
    (fun pathname =>
       if pathname =? folder ++ "/**full_output*.csv*"
       then [Demo.full_output_path] else [])
    (fun path => if path =? Demo.full_output_path then Some lines else None)
    (lowess Demo.world)
    (pow Demo.world)
    (pyplot Demo.world).

End NoColumn.

(** * Specification vocabulary *)

(** ** Characters of a string at natural positions *)

Fixpoint get_chars (s : string) (ps : list nat) : string :=
  match ps with
  | [] => EmptyString
  | p :: ps' =>
      match String.get p s with
      | Some c => String c (get_chars s ps')
      | None => get_chars s ps'
      end
  end.

(** ** Well-formed frames: every column spans the row labels *)

Definition wf_frame (df : DataFrame) : Prop :=
  Forall (fun c => length (snd c) = nrows df) (columns df).

Definition wf_series (s : Series) : Prop :=
  length (s_values s) = length (s_index s).

(** ** Rows of a frame, rows of a file *)

(** The rows of a frame, each with its label. *)
Definition rows_of (df : DataFrame) : list (value * list value) :=
  map (fun i => (nth i (index df) NaN, row df i)) (seq 0 (nrows df)).

Definition no_missing_cell (r : value * list value) : bool :=
  forallb (fun v => negb (isna v)) (snd r).

(** The lines [read_csv] parses: not skipped, not blank. *)
Definition table_lines (skiprows : skiprows_arg) (lines : list (list value))
  : list (list value) :=
  filter (fun l => negb (is_blank l)) (apply_skiprows skiprows lines).

(** A line of a file read with [index_col=0]: the first field is the label,
    the next [width] fields are the cells; all pass the missing-value
    filter. *)
Definition read_row (na_values : option float) (width : nat)
    (line : list value) : value * list value :=
  (na_filter na_values (nth 0 line NaN),
   map (fun j => na_filter na_values (nth (S j) line NaN)) (seq 0 width)).

Definition is_sentinel (v : value) : bool :=
  match v with
  | VStr _ => false
  | VNum x => (x =? -9999)%float
  end.

(** ** Two readings the code does not follow *)

(** [dropna] read as dropping a row as soon as any field of its line is
    missing, the frequency included: every row kept would then have a label
    and cells that are all present. *)
Definition drops_rows_with_any_missing_field (lines : list (list value))
  : Prop :=
  forall raw r,
    read_csv lines (SkipFirst 12) true (Some (-9999)%float) = Ok raw ->
    In r (rows_of (dropna raw)) ->
    isna (fst r) = false /\ no_missing_cell r = true.

(** Row by row: the file name of a row is among the returned names exactly
    when the flag of that row is 0. *)
Definition filename_returned_iff_flag0 (W : World) (folder : string) : Prop :=
  forall path rest lines df fn qc good_files,
    glob W (folder ++ "/**full_output*.csv*") = path :: rest ->
    open_csv W path = Some lines ->
    read_csv lines (SkipList [0; 2]%nat) false None = Ok df ->
    getitem df "filename" = Ok fn ->
    getitem df "qc_co2_flux" = Ok qc ->
    outcome (get_good_files W folder) = Ok good_files ->
    forall i, (i < nrows df)%nat ->
      (In (nth i (s_values fn) NaN) good_files <->
       eq0 (nth i (s_values qc) NaN) = true).

(** ** The median curve *)

(** [m] is the median of those numbers of [xs] that are present: with them
    arranged in increasing order, the middle one, or the mean of the two
    middle ones when they are even in number; NaN when there is none. *)
Definition is_median (xs : list float) (m : float) : Prop :=
  exists s,
    Permutation s (filter (fun x => negb (is_nan x)) xs) /\
    Sorted (fun a b => (a <=? b)%float = true) s /\
    (length s = 0%nat -> m = nan) /\
    (forall k, length s = (2 * k + 1)%nat -> m = nth k s nan) /\
    (forall k, length s = (2 * k + 2)%nat ->
               m = ((nth k s nan + nth (k + 1) s nan) / 2)%float).

(** [med] holds, for every row of [df], the median of its cells. *)
Definition median_curve (df : DataFrame) (med : list float) : Prop :=
  length med = nrows df /\
  forall i, (i < nrows df)%nat ->
    exists xs, as_floats (row df i) = Ok xs /\ is_median xs (nth i med nan).

(** Every series drawn and every curve sent to the smoother in [t] is the
    median curve of [df] over its row labels. *)
Definition plots_and_smooths_median (df : DataFrame) (t : list event)
  : Prop :=
  forall e, In e t ->
    match e with
    | EvPlot (PlotSeries idx vals) _ _ _ =>
        idx = index df /\ median_curve df vals
    | EvLowess endog exog _ _ => exog = index df /\ median_curve df endog
    | _ => True
    end.

(** What both plot functions do after the curves are drawn: six calls that
    dress the figure, then the saving, each on the figure as it stands, up
    to the first that raises. *)
Definition tweak_calls (ylabel : string) : list event :=
  [EvXscale "log"; EvYscale "log"; EvXlabel "f (Hz)"; EvYlabel ylabel;
   EvLegend; EvTightLayout].

Definition save_calls (outfile : option string) : list event :=
  match outfile with
  | None => []
  | Some "" => []
  | Some o => [EvSavefig o 300 "tight"]
  end.

Fixpoint plt_calls (W : World) (fig : list event) (calls : list event)
  : M (list event) :=
  match calls with
  | [] => ret fig
  | call :: calls' => fig' <- plt W fig call ;; plt_calls W fig' calls'
  end.

Definition finish (W : World) (fig : list event) (ylabel : string)
    (outfile : option string) : M unit :=
  fig' <- plt_calls W fig (tweak_calls ylabel) ;;
  save_if_desired W fig' outfile.

Definition is_file_event (e : event) : bool :=
  match e with
  | EvGlob _ | EvReadCsv _ => true
  | _ => false
  end.

(** ** What the merge loop maintains *)

Section MergeSpec.

Variable W : World.
Variable folder : string.

(** The frame [merge_good_files] builds from the file found for [f]:
    read with the sentinel filter, then [dropna]. *)
Definition processed (f : string) (df : DataFrame) : Prop :=
  exists path rest lines raw,
    glob W (cospectra_glob folder (pattern_of f)) = path :: rest /\
    open_csv W path = Some lines /\
    read_csv lines (SkipFirst 12) true (Some (-9999)%float) = Ok raw /\
    df = dropna raw.

(** Column [key] with cells [vals], in a table with row labels [idx], is the
    series [name] of the file found for some [f] of [good_files], laid out
    along [idx]; a table without rows only holds series without rows. *)
Definition column_from (good_files : list value) (name : string)
    (idx : list value) (key : value) (vals : list value) : Prop :=
  exists f df s,
    In (VStr f) good_files /\ key = VStr (pattern_of f) /\
    processed f df /\ getitem df name = Ok s /\
    reindex s idx = Ok vals /\ (idx = [] -> s_index s = []).

(** The two assignments of one iteration. *)
Definition assign_columns (acc : DataFrame * DataFrame) (pattern : string)
    (df : DataFrame) : result (DataFrame * DataFrame) :=
  match getitem df "f_nat*spec(ts)" with
  | Raise e => Raise e
  | Ok spec =>
      match setitem (fst acc) (VStr pattern) spec with
      | Raise e => Raise e
      | Ok good_spectras =>
          match getitem df "f_nat*cospec(w_ts)" with
          | Raise e => Raise e
          | Ok cospec =>
              match setitem (snd acc) (VStr pattern) cospec with
              | Raise e => Raise e
              | Ok good_cospectras => Ok (good_spectras, good_cospectras)
              end
          end
      end
  end.

Record merge_inv (done : list value) (gs gc : DataFrame) : Prop := {
  inv_index : index gs = index gc;
  inv_labels : labels gs = labels gc;
  inv_nodup : NoDup (labels gs);
  inv_spec : forall key vals, In (key, vals) (columns gs) ->
             column_from done "f_nat*spec(ts)" (index gs) key vals;
  inv_cospec : forall key vals, In (key, vals) (columns gc) ->
               column_from done "f_nat*cospec(w_ts)" (index gc) key vals;
  inv_present : forall f, In (VStr f) done ->
                glob W (cospectra_glob folder (pattern_of f)) <> [] ->
                In (VStr (pattern_of f)) (labels gs);
  inv_rows : index gs = [] \/
             exists f df, In (VStr f) done /\ processed f df /\
                          index gs = index df
}.

End MergeSpec.

(** ** What one name of [good_files] asks of the file system *)

(** The directory search for the pattern of the name and, when it finds
    something, the reading of the first file found. *)
Definition lookup_events (W : World) (folder : string) (v : value)
  : list event :=
  match v with
  | VNum _ => []
  | VStr f =>
      EvGlob (cospectra_glob folder (pattern_of f))
      :: match glob W (cospectra_glob folder (pattern_of f)) with
         | [] => []
         | path :: _ => [EvReadCsv path]
         end
  end.

(** The name has a (co)spectra file. *)
Definition has_file (W : World) (folder : string) (v : value) : bool :=
  match v with
  | VNum _ => false
  | VStr f =>
      match glob W (cospectra_glob folder (pattern_of f)) with
      | [] => false
      | _ :: _ => true
      end
  end.

(** Events that dress a figure after its curves are drawn. *)
Definition is_styling (e : event) : bool :=
  match e with
  | EvXscale _ | EvYscale _ | EvXlabel _ | EvYlabel _ | EvLegend
  | EvTightLayout | EvSavefig _ _ _ => true
  | _ => false
  end.

(** * Properties *)

(** ** The model on small inputs *)

Example pattern_of_raw_file_name :
  pattern_of "MOFO_20190723_1200.dat" = "20190723-1200".
Proof. reflexivity. Qed.

Example pattern_of_short_name : pattern_of "abcdef" = "f-ab".
Proof. reflexivity. Qed.

Example nanmedian_odd : nanmedian [3; 1; 2]%float = 2%float.
Proof. reflexivity. Qed.

Example nanmedian_even : nanmedian [4; 1; 3; 2]%float = 2.5%float.
Proof. reflexivity. Qed.

Example nanmedian_skips_missing : nanmedian [1; nan; 4; 2]%float = 2%float.
Proof. reflexivity. Qed.

Example nanmedian_all_missing : nanmedian [nan; nan]%float = nan.
Proof. reflexivity. Qed.

Example linspace_quarters :
  linspace 0 1 5 = [0; 0.25; 0.5; 0.75; 1]%float.
Proof. reflexivity. Qed.

Example read_full_output :
  read_csv Dup.full_output_lines (SkipList [0; 2]%nat) false None =
  Ok Dup.table.
Proof. reflexivity. Qed.

Example read_spectra_file :
  read_csv BadFreq.spectra_lines (SkipFirst 12) true (Some (-9999)%float) =
  Ok BadFreq.raw.
Proof. reflexivity. Qed.

Example dropna_spectra_file :
  dropna BadFreq.raw =
  mkFrame [VNum 0.1; NaN]
    [ (VStr "f_nat*spec(ts)", [VNum 1.5; VNum 2.5]);
      (VStr "f_nat*cospec(w_ts)", [VNum 0.25; VNum 0.75]) ].
Proof. reflexivity. Qed.

Example demo_good_files :
  get_good_files Demo.world Demo.folder =
  ([EvGlob (Demo.folder ++ "/**full_output*.csv*");
    EvReadCsv Demo.full_output_path],
   Ok Demo.good_files).
Proof. reflexivity. Qed.

Example demo_merge :
  outcome (merge_good_files Demo.world Demo.good_files Demo.folder) =
  Ok (Demo.good_spectras, Demo.good_cospectras).
Proof. vm_compute. reflexivity. Qed.

(** ** The monad *)

Lemma outcome_bind {A B : Type} (m : M A) (f : A -> M B) :
  outcome (bind m f) =
  match outcome m with
  | Ok a => outcome (f a)
  | Raise e => Raise e
  end.
Proof. destruct m as [t [a | e]]; reflexivity. Qed.

Lemma trace_bind {A B : Type} (m : M A) (f : A -> M B) :
  trace (bind m f) =
  match outcome m with
  | Ok a => (trace m ++ trace (f a))%list
  | Raise _ => trace m
  end.
Proof. destruct m as [t [a | e]]; reflexivity. Qed.

Lemma bind_ok_inv {A B : Type} (m : M A) (f : A -> M B) (b : B) :
  outcome (bind m f) = Ok b ->
  exists a, outcome m = Ok a /\ outcome (f a) = Ok b.
Proof.
  rewrite outcome_bind. destruct (outcome m) as [a | e]; [eauto | discriminate].
Qed.

(** ** Labels *)

Lemma label_eqb_refl (v : value) : label_eqb v v = true.
Proof.
  destruct v as [s | x]; simpl.
  - apply String.eqb_refl.
  - unfold is_nan. destruct (x =? x)%float; reflexivity.
Qed.

Lemma label_eqb_VStr (k : value) (p : string) :
  label_eqb k (VStr p) = true -> k = VStr p.
Proof.
  destruct k as [s | x]; simpl; [| discriminate].
  intros H. apply String.eqb_eq in H. now subst.
Qed.

(** ** Row selection *)

Lemma filter_mask_length {A B : Type} (mask : list bool) (l : list A)
    (l' : list B) :
  length l = length l' ->
  length (filter_mask mask l) = length (filter_mask mask l').
Proof.
  revert l l'. induction mask as [| b mask IH]; intros l l' H.
  - reflexivity.
  - destruct l as [| x l], l' as [| y l']; simpl in *;
      try reflexivity; try discriminate.
    injection H as H. destruct b; simpl; auto.
Qed.

(** Selection by a mask keeps the entries at the positions the mask marks. *)
Lemma filter_mask_positions {A : Type} (d : A) (mask : list bool) (l : list A) :
  (length mask <= length l)%nat ->
  filter_mask mask l =
  map (fun i => nth i l d)
      (filter (fun i => nth i mask false) (seq 0 (length mask))).
Proof.
  revert l. induction mask as [| b mask IH]; intros l Hlen.
  - reflexivity.
  - destruct l as [| x l]; [simpl in Hlen; lia |].
    simpl in Hlen.
    change (seq 0 (length (b :: mask))) with (0 :: seq 1 (length mask))%nat.
    rewrite <- seq_shift. cbn [filter nth]. rewrite filter_map_swap.
    cbn [filter_mask]. rewrite (IH l) by lia.
    destruct b; cbn [map nth]; rewrite map_map; reflexivity.
Qed.

(** ** Well-formed frames *)

Lemma select_rows_wf (mask : list bool) (df : DataFrame) :
  wf_frame df -> wf_frame (select_rows mask df).
Proof.
  unfold wf_frame, select_rows, nrows. simpl. intros H.
  apply Forall_map. eapply Forall_impl; [| exact H]. simpl.
  intros c Hc. now apply filter_mask_length.
Qed.

Lemma dropna_wf (df : DataFrame) : wf_frame df -> wf_frame (dropna df).
Proof. apply select_rows_wf. Qed.

Lemma read_csv_wf lines sk ic na df :
  read_csv lines sk ic na = Ok df -> wf_frame df.
Proof.
  unfold read_csv.
  destruct (filter _ (apply_skiprows sk lines)) as [| header rows];
    [discriminate |].
  destruct (length header <? length (hd [] rows))%nat; [discriminate |].
  destruct (existsb _ rows); [discriminate |].
  destruct ic; intros H; injection H as <-; unfold wf_frame, nrows; simpl;
    apply Forall_map, Forall_forall; intros p _; simpl;
    now rewrite !length_map, ?length_seq.
Qed.

Lemma getitem_inv (df : DataFrame) (name : string) (s : Series) :
  getitem df name = Ok s ->
  s_index s = index df /\
  exists k, In (k, s_values s) (columns df) /\ k = VStr name.
Proof.
  unfold getitem.
  destruct (find _ (columns df)) as [c |] eqn:F; [| discriminate].
  intros H. injection H as <-. simpl. split; [reflexivity |].
  apply find_some in F as [Hin Hk]. apply label_eqb_VStr in Hk.
  exists (fst c). split; [| assumption]. now destruct c.
Qed.

Lemma getitem_wf (df : DataFrame) (name : string) (s : Series) :
  wf_frame df -> getitem df name = Ok s -> wf_series s.
Proof.
  intros Hwf H. apply getitem_inv in H as [Hi [k [Hin _]]].
  unfold wf_series. rewrite Hi.
  unfold wf_frame in Hwf. rewrite Forall_forall in Hwf.
  apply (Hwf _ Hin).
Qed.

(** ** Column assignment *)

Lemma set_column_labels_same cols cols' key vals vals' :
  map fst cols = map fst cols' ->
  map fst (set_column cols key vals) = map fst (set_column cols' key vals').
Proof.
  revert cols'. induction cols as [| c cols IH]; intros [| c' cols'] H;
    simpl in *; try discriminate; [reflexivity |].
  injection H as Hc H. rewrite Hc.
  destruct (label_eqb (fst c') key); simpl; [| rewrite (IH cols' H)];
    congruence.
Qed.

Lemma set_column_In cols key vals k v :
  In (k, v) (set_column cols key vals) ->
  (label_eqb k key = true /\ v = vals) \/ In (k, v) cols.
Proof.
  induction cols as [| c cols IH]; simpl.
  - intros [H | []]. injection H as <- <-. left. split; [| reflexivity].
    apply label_eqb_refl.
  - destruct (label_eqb (fst c) key) eqn:E; simpl.
    + intros [H | H]; [| now right; right].
      injection H as <- <-. now left.
    + intros [H | H]; [now right; left |].
      destruct (IH H) as [? | ?]; [now left | now right; right].
Qed.

Lemma set_column_keeps cols key vals k :
  In k (map fst cols) -> In k (map fst (set_column cols key vals)).
Proof.
  induction cols as [| c cols IH]; simpl; [tauto |].
  destruct (label_eqb (fst c) key); simpl; tauto.
Qed.

Lemma set_column_has_key cols key vals :
  exists k, In k (map fst (set_column cols key vals)) /\
            label_eqb k key = true.
Proof.
  induction cols as [| c cols IH]; simpl.
  - exists key. split; [now left | apply label_eqb_refl].
  - destruct (label_eqb (fst c) key) eqn:E; simpl.
    + exists (fst c). split; [now left | assumption].
    + destruct IH as [k [Hin Hk]]. exists k. split; [now right | assumption].
Qed.

Lemma set_column_labels_sub cols key vals k :
  In k (map fst (set_column cols key vals)) ->
  In k (map fst cols) \/ k = key.
Proof.
  induction cols as [| c cols IH]; simpl.
  - intros [H | []]. now right.
  - destruct (label_eqb (fst c) key); simpl; [tauto |].
    intros [H | H]; [tauto |]. destruct (IH H); tauto.
Qed.

Lemma set_column_NoDup cols key vals :
  NoDup (map fst cols) -> NoDup (map fst (set_column cols key vals)).
Proof.
  induction cols as [| c cols IH]; simpl; intros H.
  - constructor; [tauto | constructor].
  - inversion H as [| ? ? Hnotin Hnd]; subst.
    destruct (label_eqb (fst c) key) eqn:E; simpl; [assumption |].
    constructor; [| auto].
    intros Hin. apply set_column_labels_sub in Hin as [Hin | Hk];
      [contradiction |].
    rewrite Hk, label_eqb_refl in E. discriminate.
Qed.

Lemma setitem_inv df key s df' :
  setitem df key s = Ok df' ->
  exists vals,
    reindex s (index (ensure_valid_index df s)) = Ok vals /\
    index df' = index (ensure_valid_index df s) /\
    columns df' = set_column (columns (ensure_valid_index df s)) key vals.
Proof.
  unfold setitem.
  destruct (reindex s (index (ensure_valid_index df s))) as [vals | e];
    [| discriminate].
  intros H. injection H as <-. exists vals. auto.
Qed.

Lemma ensure_valid_index_labels df s :
  labels (ensure_valid_index df s) = labels df.
Proof.
  unfold ensure_valid_index, labels. destruct (index df); simpl;
    [| reflexivity].
  rewrite map_map. reflexivity.
Qed.

Lemma ensure_valid_index_index df s :
  index (ensure_valid_index df s) =
  match index df with [] => s_index s | _ => index df end.
Proof.
  unfold ensure_valid_index. destruct (index df) eqn:E; simpl; congruence.
Qed.

(** A series without rows, laid out along any labels, is all missing. *)
Lemma reindex_empty_series s target :
  s_index s = [] -> wf_series s ->
  reindex s target = Ok (map (fun _ => NaN) target).
Proof.
  intros Hi Hwf. unfold wf_series in Hwf. rewrite Hi in Hwf.
  destruct (s_values s) as [| v vs] eqn:Hv; [| discriminate].
  unfold reindex, index_equals, lookup_label. rewrite Hi, Hv. simpl.
  destruct target as [| l target]; simpl; reflexivity.
Qed.

(** ** The merge loop *)

Section Merge.

Variable W : World.
Variable folder : string.

Lemma processed_wf f df : processed W folder f df -> wf_frame df.
Proof.
  intros (path & rest & lines & raw & _ & _ & Hr & ->).
  apply dropna_wf. eapply read_csv_wf; eassumption.
Qed.

Lemma merge_step_skip acc f :
  glob W (cospectra_glob folder (pattern_of f)) = [] ->
  merge_step W folder acc (VStr f) =
  ([EvGlob (cospectra_glob folder (pattern_of f))], Ok acc).
Proof.
  intros H. unfold merge_step, glob_. simpl. rewrite H. reflexivity.
Qed.

Lemma merge_step_found acc f path rest :
  glob W (cospectra_glob folder (pattern_of f)) = path :: rest ->
  merge_step W folder acc (VStr f) =
  ([EvGlob (cospectra_glob folder (pattern_of f)); EvReadCsv path],
   match open_csv W path with
   | None => Raise FileNotFoundError
   | Some lines =>
       match read_csv lines (SkipFirst 12) true (Some (-9999)%float) with
       | Raise e => Raise e
       | Ok raw => assign_columns acc (pattern_of f) (dropna raw)
       end
   end).
Proof.
  intros H. unfold merge_step, glob_, pd_read_csv, assign_columns.
  simpl. rewrite H. simpl.
  destruct (open_csv W path) as [lines |]; simpl; [| reflexivity].
  destruct (read_csv lines _ _ _) as [raw | e]; simpl; [| reflexivity].
  destruct (getitem (dropna raw) "f_nat*spec(ts)") as [s1 | e]; simpl;
    [| reflexivity].
  destruct (setitem (fst acc) _ s1) as [gs | e]; simpl; [| reflexivity].
  destruct (getitem (dropna raw) "f_nat*cospec(w_ts)") as [s2 | e]; simpl;
    [| reflexivity].
  destruct (setitem (snd acc) _ s2) as [gc | e]; reflexivity.
Qed.

Lemma merge_step_ok_inv acc fv acc' :
  outcome (merge_step W folder acc fv) = Ok acc' ->
  exists f, fv = VStr f /\
    ((glob W (cospectra_glob folder (pattern_of f)) = [] /\ acc' = acc) \/
     (exists df, processed W folder f df /\
                 assign_columns acc (pattern_of f) df = Ok acc')).
Proof.
  destruct fv as [f | x]; [| discriminate]. intros H. exists f.
  split; [reflexivity |].
  destruct (glob W (cospectra_glob folder (pattern_of f)))
    as [| path rest] eqn:G.
  - left. rewrite (merge_step_skip _ _ G) in H. injection H as <-. auto.
  - right. rewrite (merge_step_found _ _ _ _ G) in H. unfold outcome in H.
    simpl in H.
    destruct (open_csv W path) as [lines |] eqn:O; [| discriminate].
    destruct (read_csv lines _ _ _) as [raw | e] eqn:R; [| discriminate].
    exists (dropna raw). split; [| assumption].
    exists path, rest, lines, raw. auto.
Qed.

Lemma column_from_weaken done done' name idx key vals :
  (forall v, In v done -> In v done') ->
  column_from W folder done name idx key vals ->
  column_from W folder done' name idx key vals.
Proof.
  intros Hsub (f & df & s & Hin & H). exists f, df, s. split; auto.
Qed.

(** One assignment keeps every column tied to the file it was read from. *)
Lemma setitem_column_from done name f df s g g' :
  (forall key vals, In (key, vals) (columns g) ->
                    column_from W folder done name (index g) key vals) ->
  processed W folder f df -> getitem df name = Ok s ->
  setitem g (VStr (pattern_of f)) s = Ok g' ->
  forall key vals, In (key, vals) (columns g') ->
    column_from W folder (done ++ [VStr f]) name (index g') key vals.
Proof.
  intros Hold Hp Hg Hset key vals Hin.
  apply setitem_inv in Hset as (vals0 & Hre & Hidx & Hcols).
  rewrite Hcols in Hin. rewrite Hidx.
  rewrite ensure_valid_index_index in *.
  apply set_column_In in Hin as [[Hk ->] | Hin].
  - apply label_eqb_VStr in Hk. exists f, df, s.
    repeat split; auto.
    + apply in_or_app. right. now left.
    + destruct (index g); [tauto | discriminate].
  - unfold ensure_valid_index in Hin.
    destruct (index g) as [| l idx] eqn:E; simpl in Hin.
    + apply in_map_iff in Hin as (c & Hc & Hin). injection Hc as <- <-.
      destruct c as [k v]. apply Hold in Hin.
      destruct Hin as (f' & df' & s' & Hin' & Hk & Hp' & Hg' & _ & He).
      exists f', df', s'. repeat split; auto.
      * apply in_or_app. now left.
      * simpl. apply reindex_empty_series; [auto |].
        eapply getitem_wf; [| exact Hg']. eapply processed_wf; eassumption.
    + apply Hold in Hin. eapply column_from_weaken; [| exact Hin].
      intros v Hv. apply in_or_app. now left.
Qed.

Lemma assign_columns_inv done f df gs gc gs' gc' :
  merge_inv W folder done gs gc -> processed W folder f df ->
  assign_columns (gs, gc) (pattern_of f) df = Ok (gs', gc') ->
  merge_inv W folder (done ++ [VStr f]) gs' gc'.
Proof.
  intros Inv Hp H. unfold assign_columns in H. simpl in H.
  destruct (getitem df "f_nat*spec(ts)") as [s1 | ?] eqn:G1; [| discriminate].
  destruct (setitem gs _ s1) as [gs1 |] eqn:S1; [| discriminate].
  destruct (getitem df "f_nat*cospec(w_ts)") as [s2 | ?] eqn:G2;
    [| discriminate].
  destruct (setitem gc _ s2) as [gc1 |] eqn:S2; [| discriminate].
  injection H as <- <-.
  pose proof (setitem_inv _ _ _ _ S1) as (v1 & R1 & I1 & C1).
  pose proof (setitem_inv _ _ _ _ S2) as (v2 & R2 & I2 & C2).
  pose proof (getitem_inv _ _ _ G1) as [Hi1 _].
  pose proof (getitem_inv _ _ _ G2) as [Hi2 _].
  destruct Inv as [Ii Il Ind Is Ic Ip Ir].
  assert (Hidx : index gs1 = index gc1).
  { rewrite I1, I2, !ensure_valid_index_index, Ii, Hi1, Hi2. reflexivity. }
  assert (Hlab : labels gs1 = labels gc1).
  { unfold labels. rewrite C1, C2. apply set_column_labels_same.
    fold (labels (ensure_valid_index gs s1)).
    fold (labels (ensure_valid_index gc s2)).
    now rewrite !ensure_valid_index_labels. }
  constructor; auto.
  - unfold labels. rewrite C1. apply set_column_NoDup.
    fold (labels (ensure_valid_index gs s1)).
    now rewrite ensure_valid_index_labels.
  - eapply setitem_column_from; eassumption.
  - eapply setitem_column_from; eassumption.
  - intros f0 Hin Hglob. unfold labels. rewrite C1.
    apply in_app_or in Hin as [Hin | [Hin | []]].
    + apply set_column_keeps.
      fold (labels (ensure_valid_index gs s1)).
      rewrite ensure_valid_index_labels. auto.
    + injection Hin as <-.
      destruct (set_column_has_key (columns (ensure_valid_index gs s1))
                  (VStr (pattern_of f)) v1) as (k & Hk & Hkey).
      apply label_eqb_VStr in Hkey. now subst k.
  - rewrite I1, ensure_valid_index_index.
    destruct (index gs) as [| l idx] eqn:E.
    + right. exists f, df. repeat split; auto.
      apply in_or_app. right. now left.
    + destruct Ir as [Ir | (f0 & df0 & Hin & Hp0 & Hi0)]; [discriminate |].
      right. exists f0, df0. repeat split; auto.
      apply in_or_app. now left.
Qed.

Lemma merge_inv_empty : merge_inv W folder [] empty_frame empty_frame.
Proof.
  constructor; simpl; auto; try (intros ? ? []); try (intros ? []).
  constructor.
Qed.

Lemma merge_step_inv done acc fv acc' :
  merge_inv W folder done (fst acc) (snd acc) ->
  outcome (merge_step W folder acc fv) = Ok acc' ->
  merge_inv W folder (done ++ [fv]) (fst acc') (snd acc').
Proof.
  intros Inv H.
  apply merge_step_ok_inv in H as (f & -> & [[G ->] | (df & Hp & Ha)]).
  - destruct Inv as [Ii Il Ind Is Ic Ip Ir]. constructor; auto.
    + intros key vals Hin. eapply column_from_weaken; [| eauto].
      intros v Hv. apply in_or_app. now left.
    + intros key vals Hin. eapply column_from_weaken; [| eauto].
      intros v Hv. apply in_or_app. now left.
    + intros f0 Hin Hglob. apply in_app_or in Hin as [Hin | [Hin | []]];
        [auto |]. injection Hin as <-. contradiction.
    + destruct Ir as [Ir | (f0 & df0 & Hin & H)]; [now left |].
      right. exists f0, df0. split; [apply in_or_app; now left | auto].
  - destruct acc as [gs gc], acc' as [gs' gc']. simpl in *.
    eapply assign_columns_inv; eassumption.
Qed.

Lemma merge_loop_inv l : forall done acc acc',
  merge_inv W folder done (fst acc) (snd acc) ->
  outcome (merge_loop W folder l acc) = Ok acc' ->
  merge_inv W folder (done ++ l) (fst acc') (snd acc').
Proof.
  induction l as [| fv l IH]; intros done acc acc' Inv H.
  - rewrite app_nil_r. injection H as <-. assumption.
  - simpl in H. apply bind_ok_inv in H as (acc1 & H1 & H2).
    replace (done ++ fv :: l)%list with ((done ++ [fv]) ++ l)%list
      by (rewrite <- app_assoc; reflexivity).
    eapply IH; [| exact H2]. eapply merge_step_inv; eassumption.
Qed.

Lemma merge_good_files_inv good_files gs gc :
  outcome (merge_good_files W good_files folder) = Ok (gs, gc) ->
  merge_inv W folder good_files gs gc.
Proof.
  intros H.
  apply (merge_loop_inv good_files [] (empty_frame, empty_frame) (gs, gc)
           merge_inv_empty H).
Qed.

(** Every file name the loop reaches is looked up once, by its pattern. *)
Lemma merge_loop_globs l : forall acc acc' f,
  outcome (merge_loop W folder l acc) = Ok acc' ->
  In (VStr f) l ->
  In (EvGlob (cospectra_glob folder (pattern_of f)))
     (trace (merge_loop W folder l acc)).
Proof.
  induction l as [| fv l IH]; intros acc acc' f H Hin; [destruct Hin |].
  simpl in H |- *. rewrite trace_bind.
  apply bind_ok_inv in H as (acc1 & H1 & H2). rewrite H1.
  apply in_or_app. destruct Hin as [-> | Hin].
  - left.
    destruct (glob W (cospectra_glob folder (pattern_of f)))
      as [| path rest] eqn:G.
    + rewrite (merge_step_skip _ _ G). now left.
    + rewrite (merge_step_found _ _ _ _ G). now left.
  - right. eapply IH; eassumption.
Qed.

End Merge.

(** ** Slices as characters at positions *)

Lemma get_chars_empty ps : get_chars EmptyString ps = EmptyString.
Proof. induction ps as [| p ps IH]; simpl; auto. Qed.

Lemma get_chars_shift c s ps :
  get_chars (String c s) (map S ps) = get_chars s ps.
Proof.
  induction ps as [| p ps IH]; simpl; [reflexivity |].
  destruct (String.get p s); now rewrite IH.
Qed.

Lemma substring_get_chars n : forall m s,
  substring n m s = get_chars s (seq n m).
Proof.
  induction n as [| n IHn].
  - induction m as [| m IHm]; intros s.
    + destruct s; reflexivity.
    + destruct s as [| c s]; [now rewrite get_chars_empty |].
      simpl. rewrite IHm, <- seq_shift, get_chars_shift. reflexivity.
  - intros m [| c s]; [now rewrite get_chars_empty |].
    simpl substring. rewrite IHn, <- seq_shift, get_chars_shift. reflexivity.
Qed.

Lemma chars_at_nat s ps : chars_at s (map Z.of_nat ps) = get_chars s ps.
Proof.
  induction ps as [| p ps IH]; simpl; [reflexivity |].
  unfold py_index. destruct (Z.of_nat p <? 0)%Z eqn:E;
    [apply Z.ltb_lt in E; lia |].
  rewrite Nat2Z.id, IH. reflexivity.
Qed.

Lemma py_slice_5_13 s :
  py_slice s 5 13 = chars_at s [5; 6; 7; 8; 9; 10; 11; 12]%Z.
Proof.
  do 13 (destruct s as [| ? s]; [reflexivity |]).
  change [5; 6; 7; 8; 9; 10; 11; 12]%Z with (map Z.of_nat (seq 5 8)).
  rewrite chars_at_nat, <- substring_get_chars.
  unfold py_slice, adjust_index.
  match goal with |- context [String.length ?t] =>
    assert (13 <= String.length t)%nat by (simpl; lia);
    generalize dependent (String.length t); generalize dependent t
  end.
  intros t n Hn. simpl (_ <? 0)%Z. cbv iota.
  rewrite !Z.min_l by lia. reflexivity.
Qed.

Lemma py_slice_m8_m4 s :
  py_slice s (-8) (-4) = chars_at s [-8; -7; -6; -5]%Z.
Proof.
  do 8 (destruct s as [| ? s]; [reflexivity |]).
  match goal with |- context [chars_at ?t _] =>
    assert (8 <= String.length t)%nat by (simpl; lia);
    generalize dependent t
  end.
  intros t Hn. unfold py_slice, adjust_index, chars_at, py_index.
  change (-8 <? 0)%Z with true. change (-7 <? 0)%Z with true.
  change (-6 <? 0)%Z with true. change (-5 <? 0)%Z with true.
  change (-4 <? 0)%Z with true. cbv iota.
  set (n := String.length t) in *.
  replace (0 <=? -8 + Z.of_nat n)%Z with true by lia.
  replace (0 <=? -7 + Z.of_nat n)%Z with true by lia.
  replace (0 <=? -6 + Z.of_nat n)%Z with true by lia.
  replace (0 <=? -5 + Z.of_nat n)%Z with true by lia.
  replace (Z.to_nat (Z.max 0 (-8 + Z.of_nat n))) with (n - 8)%nat by lia.
  replace (Z.to_nat (Z.max 0 (-4 + Z.of_nat n) - Z.max 0 (-8 + Z.of_nat n)))
    with 4%nat by lia.
  replace (Z.to_nat (-8 + Z.of_nat n)) with (n - 8)%nat by lia.
  replace (Z.to_nat (-7 + Z.of_nat n)) with (S (n - 8)) by lia.
  replace (Z.to_nat (-6 + Z.of_nat n)) with (S (S (n - 8))) by lia.
  replace (Z.to_nat (-5 + Z.of_nat n)) with (S (S (S (n - 8)))) by lia.
  rewrite substring_get_chars. reflexivity.
Qed.

Lemma pattern_of_chars f :
  pattern_of f =
  chars_at f [5; 6; 7; 8; 9; 10; 11; 12]%Z ++ "-" ++
  chars_at f [-8; -7; -6; -5]%Z.
Proof.
  unfold pattern_of. now rewrite py_slice_5_13, py_slice_m8_m4.
Qed.

(** ** Lengths of slices *)

Lemma length_append (a b : string) :
  String.length (a ++ b) = (String.length a + String.length b)%nat.
Proof. induction a as [| c a IH]; simpl; auto. Qed.

Lemma length_substring n : forall m s,
  (n + m <= String.length s)%nat -> String.length (substring n m s) = m.
Proof.
  induction n as [| n IHn].
  - induction m as [| m IHm]; intros [| c s] H; simpl in *; try lia;
      try reflexivity.
    rewrite IHm by lia. reflexivity.
  - intros m [| c s] H; simpl in *; [lia |]. apply IHn. lia.
Qed.

Lemma pattern_of_length f :
  (13 <= String.length f)%nat -> String.length (pattern_of f) = 13%nat.
Proof.
  intros H. unfold pattern_of, py_slice, adjust_index.
  change (5 <? 0)%Z with false. change (13 <? 0)%Z with false.
  change (-8 <? 0)%Z with true. change (-4 <? 0)%Z with true. cbv iota.
  rewrite !length_append, !length_substring; simpl String.length; lia.
Qed.

(** ** Sequencing *)

Lemma bind_assoc {A B C : Type} (m : M A) (f : A -> M B) (g : B -> M C) :
  bind (bind m f) g = bind m (fun a => bind (f a) g).
Proof.
  destruct m as [t [a | e]]; simpl; [| reflexivity].
  destruct (f a) as [t1 [b | e]]; simpl; [| reflexivity].
  destruct (g b) as [t2 r]; simpl. now rewrite app_assoc.
Qed.

Lemma bind_ret_l {A B : Type} (a : A) (f : A -> M B) : bind (ret a) f = f a.
Proof. unfold bind, ret. simpl. now destruct (f a). Qed.

Lemma bind_ext {A B : Type} (m : M A) (f g : A -> M B) :
  (forall a, f a = g a) -> bind m f = bind m g.
Proof. intros H. destruct m as [t [a | e]]; simpl; now rewrite ?H. Qed.

Lemma merge_loop_app W folder l1 : forall l2 acc,
  merge_loop W folder (l1 ++ l2) acc =
  bind (merge_loop W folder l1 acc) (merge_loop W folder l2).
Proof.
  induction l1 as [| fv l1 IH]; intros l2 acc; cbn [merge_loop app].
  - now rewrite bind_ret_l.
  - rewrite bind_assoc. apply bind_ext. intros a. apply IH.
Qed.

Lemma processed_fun W folder f f' df df' :
  pattern_of f = pattern_of f' ->
  processed W folder f df -> processed W folder f' df' -> df = df'.
Proof.
  intros E (p & r & l & raw & G & O & R & ->)
           (p' & r' & l' & raw' & G' & O' & R' & ->).
  rewrite E in G. rewrite G in G'. injection G' as <- <-.
  rewrite O in O'. injection O' as <-. rewrite R in R'. now injection R' as <-.
Qed.

Lemma processed_same_pattern W folder f f' df :
  pattern_of f = pattern_of f' ->
  processed W folder f' df -> processed W folder f df.
Proof.
  intros E (p & r & l & raw & G & H). exists p, r, l, raw.
  rewrite E. auto.
Qed.

(** ** Lists by position *)

Lemma nth_map_lt {A B : Type} (f : A -> B) (l : list A) (i : nat) (dA : A)
    (dB : B) :
  (i < length l)%nat -> nth i (map f l) dB = f (nth i l dA).
Proof.
  revert i. induction l as [| a l IH]; intros [| i] H; simpl in *;
    try lia; auto. apply IH. lia.
Qed.

Lemma map_nth_seq {A B : Type} (f : A -> B) (l : list A) (d : A) :
  map f l = map (fun i => f (nth i l d)) (seq 0 (length l)).
Proof.
  induction l as [| a l IH]; [reflexivity |].
  simpl. rewrite <- seq_shift, map_map. f_equal. exact IH.
Qed.

Lemma map_fst_combine {A B : Type} (l : list A) : forall l' : list B,
  length l = length l' -> map fst (combine l l') = l.
Proof.
  induction l as [| a l IH]; intros [| b l'] H; simpl in *;
    try discriminate; [reflexivity |].
  f_equal. apply IH. now injection H.
Qed.

(** ** Rows read and rows kept *)

Lemma read_csv_rows lines sk na raw :
  read_csv lines sk true na = Ok raw ->
  exists header rows,
    table_lines sk lines = header :: rows /\
    rows_of raw = map (read_row na (length (tl header))) rows.
Proof.
  unfold read_csv. fold (table_lines sk lines).
  destruct (table_lines sk lines) as [| header rows]; [discriminate |].
  destruct (length header <? length (hd [] rows))%nat; [discriminate |].
  destruct (existsb _ rows); [discriminate |].
  intros H. injection H as <-. exists header, rows. split; [reflexivity |].
  unfold rows_of, nrows, row, read_row. simpl.
  rewrite length_map.
  rewrite (map_nth_seq
             (fun line =>
                (na_filter na (nth 0 line NaN),
                 map (fun j => na_filter na (nth (S j) line NaN))
                     (seq 0 (length (tl header))))) rows []).
  apply map_ext_in. intros i Hi. apply in_seq in Hi.
  rewrite (nth_map_lt _ rows i [] NaN) by lia. f_equal.
  rewrite map_map. simpl.
  rewrite <- (map_fst_combine (seq 0 (length (tl header))) (tl header))
    at 2 by now rewrite length_seq.
  rewrite map_map. apply map_ext. intros p.
  now rewrite (nth_map_lt _ rows i [] NaN) by lia.
Qed.

Lemma select_rows_positions mask df :
  wf_frame df -> length mask = nrows df ->
  let kept := filter (fun i => nth i mask false) (seq 0 (nrows df)) in
  rows_of (select_rows mask df) =
  map (fun i => (nth i (index df) NaN, row df i)) kept.
Proof.
  intros Hwf Hlen kept. unfold rows_of, nrows, select_rows, row. simpl.
  rewrite (filter_mask_positions NaN) by (unfold nrows in Hlen; lia).
  rewrite Hlen. fold kept. rewrite length_map.
  rewrite (map_nth_seq
             (fun i => (nth i (index df) NaN,
                        map (fun c => nth i (snd c) NaN) (columns df)))
             kept 0%nat).
  apply map_ext_in.
  intros k Hk. apply in_seq in Hk.
  rewrite (nth_map_lt _ kept k 0%nat NaN) by lia. f_equal.
  rewrite map_map. simpl. apply map_ext_in. intros c Hc.
  rewrite (filter_mask_positions NaN).
  - rewrite Hlen. fold kept. now rewrite (nth_map_lt _ kept k 0%nat NaN) by lia.
  - unfold wf_frame in Hwf. rewrite Forall_forall in Hwf.
    rewrite (Hwf c Hc). lia.
Qed.

(** [dropna] keeps, in order, exactly the rows without a missing cell. *)
Lemma dropna_rows raw :
  wf_frame raw -> rows_of (dropna raw) = filter no_missing_cell (rows_of raw).
Proof.
  intros Hwf. unfold dropna.
  rewrite select_rows_positions by (auto; now rewrite length_map, length_seq).
  unfold rows_of. rewrite filter_map_swap. f_equal.
  apply filter_ext_in. intros i Hi. apply in_seq in Hi.
  rewrite (nth_map_lt _ _ i 0%nat false) by (rewrite length_seq; lia).
  rewrite seq_nth by lia. reflexivity.
Qed.

(** ** Where the cells of a merged column come from *)

Lemma reindex_values s idx vals v :
  reindex s idx = Ok vals -> In v vals -> v = NaN \/ In v (s_values s).
Proof.
  unfold reindex. destruct (index_equals (s_index s) idx).
  - intros H. injection H as <-. now right.
  - destruct idx as [| l idx]; [intros H; injection H as <-; now right |].
    remember (l :: idx) as target.
    destruct (is_unique (s_index s)); [| discriminate].
    intros H Hin. injection H as <-.
    apply in_map_iff in Hin as (l' & <- & _). unfold lookup_label.
    destruct (find _ _) as [[a b] |] eqn:F; [| now left].
    right. apply find_some in F as [F _]. simpl.
    eapply in_combine_r; eassumption.
Qed.

Lemma reindex_cell s idx vals i :
  wf_series s -> (idx = [] -> s_index s = []) ->
  reindex s idx = Ok vals ->
  isna (nth i vals NaN) = false ->
  exists j, (j < length (s_index s))%nat /\
    label_eqb (nth j (s_index s) NaN) (nth i idx NaN) = true /\
    nth j (s_values s) NaN = nth i vals NaN.
Proof.
  intros Hwf Hidx. unfold wf_series in Hwf. unfold reindex.
  destruct (index_equals (s_index s) idx) eqn:E.
  - intros H Hna. injection H as <-.
    unfold index_equals in E. apply andb_true_iff in E as [El Ef].
    apply Nat.eqb_eq in El.
    destruct (Nat.lt_ge_cases i (length (s_values s))) as [Hi | Hi].
    + exists i. split; [lia |]. split; [| reflexivity].
      rewrite forallb_forall in Ef.
      specialize (Ef (nth i (combine (s_index s) idx) (NaN, NaN))).
      rewrite combine_nth in Ef by assumption. apply Ef.
      rewrite <- (combine_nth _ _ _ _ _ El). apply nth_In.
      rewrite length_combine. lia.
    + rewrite nth_overflow in Hna by assumption. discriminate.
  - destruct idx as [| l idx].
    + rewrite (Hidx eq_refl) in E. discriminate.
    + remember (l :: idx) as target.
      destruct (is_unique (s_index s)); [| discriminate].
      intros H Hna. injection H as <-.
      destruct (Nat.lt_ge_cases i (length target)) as [Hi | Hi].
      * rewrite (nth_map_lt _ _ i NaN NaN) in Hna |- * by assumption.
        unfold lookup_label in Hna |- *.
        destruct (find _ _) as [p |] eqn:F; [| discriminate].
        apply find_some in F as [Fin Fl].
        apply (In_nth _ _ (NaN, NaN)) in Fin as (j & Hj & Ej).
        rewrite length_combine in Hj.
        rewrite combine_nth in Ej by (symmetry; assumption).
        exists j. subst p. simpl in *. split; [lia |]. auto.
      * rewrite nth_overflow in Hna by (rewrite length_map; assumption).
        discriminate.
Qed.

Lemma frame_cells_in_rows df c v :
  wf_frame df -> In c (columns df) -> In v (snd c) ->
  exists r, In r (rows_of df) /\ In v (snd r).
Proof.
  intros Hwf Hc Hv. apply (In_nth _ _ NaN) in Hv as (j & Hj & <-).
  unfold wf_frame in Hwf. rewrite Forall_forall in Hwf.
  rewrite (Hwf c Hc) in Hj.
  exists (nth j (index df) NaN, row df j). split.
  - unfold rows_of. apply in_map_iff. exists j. split; [reflexivity |].
    apply in_seq. lia.
  - simpl. unfold row. apply in_map_iff. exists c. auto.
Qed.

Lemma frame_labels_in_rows df v :
  In v (index df) -> exists r, In r (rows_of df) /\ fst r = v.
Proof.
  intros Hv. apply (In_nth _ _ NaN) in Hv as (j & Hj & <-).
  exists (nth j (index df) NaN, row df j). split; [| reflexivity].
  unfold rows_of. apply in_map_iff. exists j. split; [reflexivity |].
  apply in_seq. unfold nrows. lia.
Qed.

Lemma is_sentinel_na_filter v :
  is_sentinel (na_filter (Some (-9999)%float) v) = false.
Proof.
  destruct v as [s | x]; cbn [na_filter].
  - destruct (existsb (String.eqb s) STR_NA_VALUES); reflexivity.
  - destruct (x =? -9999)%float eqn:E; [reflexivity | exact E].
Qed.

Lemma sentinel_is_missing v :
  is_sentinel v = true -> na_filter (Some (-9999)%float) v = NaN.
Proof.
  destruct v as [s | x]; simpl; [discriminate |]. now intros ->.
Qed.

(** Rows of a frame built by the loop: nothing in them equals the sentinel,
    and no cell is missing. *)
Lemma processed_rows_clean W folder f df r :
  processed W folder f df -> In r (rows_of df) ->
  is_sentinel (fst r) = false /\
  (forall v, In v (snd r) -> is_sentinel v = false) /\
  no_missing_cell r = true.
Proof.
  intros (p & rest & lines & raw & _ & _ & R & ->) Hin.
  rewrite dropna_rows in Hin by (eapply read_csv_wf; eassumption).
  apply filter_In in Hin as [Hin Hnm].
  apply read_csv_rows in R as (header & rows & _ & Hrows).
  rewrite Hrows in Hin. apply in_map_iff in Hin as (line & <- & _).
  unfold read_row. simpl. split; [apply is_sentinel_na_filter |].
  split; [| assumption].
  intros v Hv. apply in_map_iff in Hv as (j & <- & _).
  apply is_sentinel_na_filter.
Qed.

Lemma column_from_cell W folder good_files name idx key vals i :
  column_from W folder good_files name idx key vals ->
  isna (nth i vals NaN) = false ->
  exists f df r,
    In (VStr f) good_files /\ key = VStr (pattern_of f) /\
    processed W folder f df /\ In r (rows_of df) /\
    no_missing_cell r = true /\
    label_eqb (fst r) (nth i idx NaN) = true /\
    In (nth i vals NaN) (snd r).
Proof.
  intros (f & df & s & Hin & Hk & Hp & Hg & Hr & He) Hna.
  pose proof (processed_wf _ _ _ _ Hp) as Hwf.
  pose proof (getitem_wf _ _ _ Hwf Hg) as Hs.
  destruct (reindex_cell _ _ _ _ Hs He Hr Hna) as (j & Hj & Hl & Hv).
  apply getitem_inv in Hg as (Hi & k & Hc & _). rewrite Hi in *.
  exists f, df, (nth j (index df) NaN, row df j).
  assert (Hrow : In (nth j (index df) NaN, row df j) (rows_of df)).
  { unfold rows_of. apply in_map_iff. exists j. split; [reflexivity |].
    apply in_seq. unfold nrows. lia. }
  repeat split; auto.
  - eapply processed_rows_clean; eassumption.
  - simpl. rewrite <- Hv. unfold row. apply in_map_iff.
    exists (k, s_values s). auto.
Qed.

Lemma column_from_not_sentinel W folder good_files name idx key vals v :
  column_from W folder good_files name idx key vals ->
  In v vals -> is_sentinel v = false.
Proof.
  intros (f & df & s & _ & _ & Hp & Hg & Hr & _) Hv.
  destruct (reindex_values _ _ _ _ Hr Hv) as [-> | Hs]; [reflexivity |].
  apply getitem_inv in Hg as (_ & k & Hc & _).
  destruct (frame_cells_in_rows df _ v (processed_wf _ _ _ _ Hp) Hc Hs)
    as (r & Hrow & Hin).
  destruct (processed_rows_clean _ _ _ _ _ Hp Hrow) as (_ & Hcl & _). auto.
Qed.

(** ** Selecting the records with flag 0 *)

Lemma getitem_select_rows mask df name :
  getitem (select_rows mask df) name =
  match getitem df name with
  | Ok s => Ok (mkSeries (filter_mask mask (s_index s))
                         (filter_mask mask (s_values s)))
  | Raise e => Raise e
  end.
Proof.
  unfold getitem, select_rows. simpl.
  induction (columns df) as [| c cols IH]; simpl; [reflexivity |].
  destruct (label_eqb (fst c) (VStr name)); [reflexivity | exact IH].
Qed.

Lemma get_good_files_found W folder path rest lines :
  glob W (folder ++ "/**full_output*.csv*") = path :: rest ->
  open_csv W path = Some lines ->
  get_good_files W folder =
  ([EvGlob (folder ++ "/**full_output*.csv*"); EvReadCsv path],
   match read_csv lines (SkipList [0; 2]%nat) false None with
   | Raise e => Raise e
   | Ok df =>
       match query_eq0 df "qc_co2_flux" with
       | Raise e => Raise e
       | Ok df' =>
           match getitem df' "filename" with
           | Raise e => Raise e
           | Ok s => Ok (s_values s)
           end
       end
   end).
Proof.
  intros G O. unfold get_good_files, glob_, pd_read_csv. simpl.
  rewrite G. simpl. rewrite O. simpl.
  destruct (read_csv lines _ _ _) as [df | e]; simpl; [| reflexivity].
  destruct (query_eq0 df "qc_co2_flux") as [df' | e]; simpl; [| reflexivity].
  destruct (getitem df' "filename") as [s | e]; reflexivity.
Qed.

Lemma query_eq0_getitem df name qc :
  getitem df name = Ok qc ->
  query_eq0 df name = Ok (select_rows (map eq0 (s_values qc)) df).
Proof.
  unfold getitem, query_eq0.
  destruct (find _ (columns df)) as [c |]; [| discriminate].
  intros H. now injection H as <-.
Qed.

(** The entries a mask selects: those at the positions it marks. *)
Lemma filter_mask_map_In {A B : Type} (p : B -> bool) (dB : B) (dA : A)
    (keys : list B) (l : list A) (x : A) :
  length keys = length l ->
  (In x (filter_mask (map p keys) l) <->
   exists i, (i < length l)%nat /\ nth i l dA = x /\
             p (nth i keys dB) = true).
Proof.
  intros Hlen.
  rewrite (filter_mask_positions dA) by (rewrite length_map; lia).
  rewrite length_map, in_map_iff. split.
  - intros (i & Hx & Hi). apply filter_In in Hi as [Hi Hp].
    apply in_seq in Hi.
    rewrite (nth_map_lt _ _ i dB false) in Hp by lia.
    exists i. split; [lia | auto].
  - intros (i & Hi & Hx & Hp). exists i. split; [assumption |].
    apply filter_In. split; [apply in_seq; lia |].
    rewrite (nth_map_lt _ _ i dB false) by lia. assumption.
Qed.

(** ** Runs of the plot functions *)

Lemma plt_run W fig call :
  plt W fig call =
  ([call],
   match pyplot W fig call with
   | Ok _ => Ok (fig ++ [call])%list
   | Raise e => Raise e
   end).
Proof. unfold plt. simpl. now destruct (pyplot W fig call) as [[] | e]. Qed.

Lemma plt_calls_prefix W calls : forall fig,
  exists rest, calls = (trace (plt_calls W fig calls) ++ rest)%list.
Proof.
  induction calls as [| c calls IH]; intros fig; [now exists [] |].
  cbn [plt_calls]. rewrite trace_bind, plt_run. simpl outcome. simpl trace.
  destruct (pyplot W fig c) as [[] | e].
  - destruct (IH (fig ++ [c])%list) as (rest & E). exists rest. simpl.
    now rewrite <- E.
  - now exists calls.
Qed.

Lemma plt_calls_ok W calls : forall fig fig',
  outcome (plt_calls W fig calls) = Ok fig' ->
  trace (plt_calls W fig calls) = calls /\ fig' = (fig ++ calls)%list.
Proof.
  induction calls as [| c calls IH]; intros fig fig' H.
  - injection H as <-. now rewrite app_nil_r.
  - cbn [plt_calls] in *. rewrite trace_bind. rewrite outcome_bind in H.
    rewrite plt_run in *. simpl outcome in *. simpl trace.
    destruct (pyplot W fig c) as [[] | e]; [| discriminate].
    destruct (IH _ _ H) as [Ht ->]. simpl. rewrite Ht, <- app_assoc. auto.
Qed.

Lemma save_if_desired_run W fig outfile :
  save_if_desired W fig outfile =
  (save_calls outfile,
   match save_calls outfile with
   | [] => Ok tt
   | call :: _ =>
       match pyplot W fig call with Ok _ => Ok tt | Raise e => Raise e end
   end).
Proof.
  destruct outfile as [[| c o] |]; try reflexivity.
  unfold save_if_desired, save_calls. rewrite plt_run.
  now destruct (pyplot W fig _) as [[] | e].
Qed.

Lemma finish_prefix W fig ylabel outfile :
  exists rest,
    (tweak_calls ylabel ++ save_calls outfile)%list =
    (trace (finish W fig ylabel outfile) ++ rest)%list.
Proof.
  unfold finish. rewrite trace_bind.
  destruct (outcome (plt_calls W fig (tweak_calls ylabel))) as [fig' | e]
    eqn:H.
  - destruct (plt_calls_ok _ _ _ _ H) as [Ht _]. rewrite Ht.
    rewrite save_if_desired_run. exists []. now rewrite app_nil_r.
  - destruct (plt_calls_prefix W (tweak_calls ylabel) fig) as (rest & E).
    exists (rest ++ save_calls outfile)%list.
    now rewrite app_assoc, <- E.
Qed.

Lemma finish_ok W fig ylabel outfile :
  outcome (finish W fig ylabel outfile) = Ok tt ->
  trace (finish W fig ylabel outfile) =
  (tweak_calls ylabel ++ save_calls outfile)%list.
Proof.
  unfold finish. rewrite trace_bind, outcome_bind.
  destruct (outcome (plt_calls W fig (tweak_calls ylabel))) as [fig' | e]
    eqn:H; [| discriminate].
  destruct (plt_calls_ok _ _ _ _ H) as [Ht _]. rewrite Ht. intros _.
  now rewrite save_if_desired_run.
Qed.

Lemma finish_In W fig ylabel outfile e :
  In e (trace (finish W fig ylabel outfile)) ->
  In e (tweak_calls ylabel) \/ In e (save_calls outfile).
Proof.
  intros H. destruct (finish_prefix W fig ylabel outfile) as (rest & E).
  apply in_app_or. rewrite E. apply in_or_app. now left.
Qed.

Lemma finish_styling W fig ylabel outfile e :
  In e (trace (finish W fig ylabel outfile)) -> is_styling e = true.
Proof.
  intros H. apply finish_In in H as [H | H].
  - simpl in H. repeat (destruct H as [<- | H]; [reflexivity |]).
    destruct H.
  - destruct outfile as [[| c o] |]; simpl in H; try contradiction.
    destruct H as [<- | []]. reflexivity.
Qed.

Lemma finish_savefig W fig ylabel outfile o dpi bbox :
  In (EvSavefig o dpi bbox) (trace (finish W fig ylabel outfile)) ->
  outfile = Some o /\ o <> "" /\ dpi = 300%nat /\ bbox = "tight".
Proof.
  intros H. apply finish_In in H as [H | H].
  - simpl in H. repeat (destruct H as [H | H]; [discriminate |]).
    destruct H.
  - destruct outfile as [[| c o'] |]; simpl in H; try contradiction.
    destruct H as [H | []]. injection H as <- <- <-.
    repeat split; discriminate.
Qed.

Lemma finish_starts W fig ylabel outfile :
  exists t, trace (finish W fig ylabel outfile) = EvXscale "log" :: t.
Proof.
  unfold finish. rewrite trace_bind. cbn [tweak_calls plt_calls].
  rewrite outcome_bind, trace_bind, plt_run. simpl outcome. simpl trace.
  destruct (pyplot W fig (EvXscale "log")) as [[] | e].
  - match goal with
    | |- context [outcome ?m] => destruct (outcome m)
    end; simpl; eauto.
  - simpl. eauto.
Qed.

Ltac run_pyplot W :=
  cbn [bind emit lift ret app trace outcome fst snd];
  repeat match goal with
    | |- context [pyplot W ?fig ?call] =>
        destruct (pyplot W fig call) as [[] | ?];
        cbn [bind emit lift ret app trace outcome fst snd]
    end;
  try reflexivity;
  repeat match goal with
    | o : option string |- _ => destruct o as [[| ? ?] |]
    end;
  cbn [bind emit lift ret app trace outcome fst snd];
  repeat match goal with
    | |- context [pyplot W ?fig ?call] =>
        destruct (pyplot W fig call) as [[] | ?];
        cbn [bind emit lift ret app trace outcome fst snd]
    end;
  reflexivity.

Lemma plot_spectras_run W df outfile :
  plot_spectras W df outfile =
  match median_axis1 df with
  | Raise e => ([EvFigure 1], Raise e)
  | Ok med =>
      let data :=
        EvPlot (PlotSeries (index df) med) "k." (Some 0.05%float)
               "median data with QC flag 0" in
      match lowess W med (index df) 0.01%float 0 with
      | Raise e =>
          ([EvFigure 1; data; EvLowess med (index df) 0.01%float 0], Raise e)
      | Ok smoothed =>
          let fit :=
            EvPlot (PlotXY (map fst (skipn 40 smoothed))
                           (map snd (skipn 40 smoothed)))
                   "b" None "lowess fit" in
          (([EvFigure 1; data; EvLowess med (index df) 0.01%float 0; fit] ++
            trace (finish W [EvFigure 1; data; fit] "spectra (T)" outfile))
             %list,
           outcome (finish W [EvFigure 1; data; fit] "spectra (T)" outfile))
      end
  end.
Proof.
  unfold plot_spectras, lowess_.
  destruct (median_axis1 df) as [med | e]; [| reflexivity].
  cbn [bind draw emit lift ret app].
  destruct (lowess W med (index df) _ 0) as [sm | e]; [| reflexivity].
  unfold finish, tweak_calls, plt_calls, plt, save_if_desired.
  run_pyplot W.
Qed.

Lemma plot_cospectras_run W df outfile :
  plot_cospectras W df outfile =
  match median_axis1 df with
  | Raise e => ([EvFigure 2], Raise e)
  | Ok med =>
      let data :=
        EvPlot (PlotSeries (index df) med) "k." (Some 0.05%float)
               "median data with QC flag 0" in
      match lowess W med (index df) 0.05%float 0 with
      | Raise e =>
          ([EvFigure 2; data; EvLowess med (index df) 0.05%float 0], Raise e)
      | Ok smoothed =>
          let fit :=
            EvPlot (PlotXY (map fst smoothed) (map snd smoothed))
                   "b" None "lowess fit" in
          let slope :=
            EvPlot (PlotXY (linspace 0.2 5 50)
                           (map (ideal_slope W) (linspace 0.2 5 50)))
                   "r--" None "-4/3 slope" in
          (([EvFigure 2; data; EvLowess med (index df) 0.05%float 0; fit;
             slope] ++
            trace (finish W [EvFigure 2; data; fit; slope] "cospectra (w/T)"
                     outfile))%list,
           outcome (finish W [EvFigure 2; data; fit; slope] "cospectra (w/T)"
                      outfile))
      end
  end.
Proof.
  unfold plot_cospectras, lowess_.
  destruct (median_axis1 df) as [med | e]; [| reflexivity].
  cbn [bind draw emit lift ret app].
  destruct (lowess W med (index df) _ 0) as [sm | e]; [| reflexivity].
  unfold finish, tweak_calls, plt_calls, plt, save_if_desired.
  run_pyplot W.
Qed.

Lemma map_result_ok {A B : Type} (f : A -> result B) (dA : A) (dB : B) l :
  forall bs, map_result f l = Ok bs ->
  length bs = length l /\
  forall i, (i < length l)%nat -> f (nth i l dA) = Ok (nth i bs dB).
Proof.
  induction l as [| a l IH]; simpl; intros bs H.
  - injection H as <-. split; [reflexivity |]. intros i Hi. lia.
  - destruct (f a) as [b | e] eqn:Fa; [| discriminate].
    destruct (map_result f l) as [bs' | e]; [| discriminate].
    injection H as <-. destruct (IH bs' eq_refl) as [Hl Hn].
    split; [simpl; now rewrite Hl |].
    intros [| i] Hi; simpl; [assumption | apply Hn; lia].
Qed.

(** ** The order of floats and the median *)

Lemma SFcompare_antisym x y :
  SpecFloat.SFcompare y x = option_map CompOpp (SpecFloat.SFcompare x y).
Proof.
  destruct x as [s1 | s1 | | s1 m1 e1], y as [s2 | s2 | | s2 m2 e2];
    try destruct s1; try destruct s2; try reflexivity; simpl;
    rewrite (Z.compare_antisym e1 e2); destruct (e1 ?= e2)%Z; simpl;
    try reflexivity;
    rewrite (Pos.compare_cont_antisym m1 m2 Eq); simpl;
    try rewrite CompOpp_involutive; reflexivity.
Qed.

Lemma not_nan_spec x :
  is_nan x = false -> FloatOps.Prim2SF x <> SpecFloat.S754_nan.
Proof.
  unfold is_nan. rewrite FloatAxioms.eqb_spec. intros H E. rewrite E in H.
  discriminate.
Qed.

(** Two numbers that are not NaN are comparable. *)
Lemma leb_total x y :
  is_nan x = false -> is_nan y = false ->
  (x <=? y)%float = false -> (y <=? x)%float = true.
Proof.
  intros Hx Hy. apply not_nan_spec in Hx, Hy.
  rewrite !FloatAxioms.leb_spec. unfold SpecFloat.SFleb.
  rewrite (SFcompare_antisym (FloatOps.Prim2SF x)).
  destruct (SpecFloat.SFcompare (FloatOps.Prim2SF x) (FloatOps.Prim2SF y))
    as [[| |] |] eqn:E; simpl; try discriminate; try reflexivity.
  exfalso.
  destruct (FloatOps.Prim2SF x), (FloatOps.Prim2SF y); simpl in E;
    try discriminate; congruence.
Qed.

Lemma insert_sorted_perm x l : Permutation (insert_sorted x l) (x :: l).
Proof.
  induction l as [| y l IH]; simpl; [reflexivity |].
  destruct (x <=? y)%float; [reflexivity |].
  rewrite IH. apply perm_swap.
Qed.

Lemma sort_floats_perm l : Permutation (sort_floats l) l.
Proof.
  induction l as [| x l IH]; simpl; [reflexivity |].
  rewrite insert_sorted_perm. now constructor.
Qed.

Lemma insert_sorted_sorted x l :
  is_nan x = false -> Forall (fun y => is_nan y = false) l ->
  Sorted (fun a b => (a <=? b)%float = true) l ->
  Sorted (fun a b => (a <=? b)%float = true) (insert_sorted x l).
Proof.
  intros Hx Hl Hs. induction l as [| y l IH]; simpl.
  - repeat constructor.
  - destruct (x <=? y)%float eqn:C.
    + constructor; [assumption | now constructor].
    + inversion Hl as [| ? ? Hy Hl']; subst.
      inversion Hs as [| ? ? Hs' Hd]; subst.
      constructor; [now apply IH |].
      destruct l as [| z l]; simpl.
      * constructor. now apply leb_total.
      * destruct (x <=? z)%float; constructor.
        -- now apply leb_total.
        -- now inversion Hd.
Qed.

Lemma sort_floats_sorted l :
  Forall (fun y => is_nan y = false) l ->
  Sorted (fun a b => (a <=? b)%float = true) (sort_floats l).
Proof.
  induction 1 as [| x l Hx Hl IH]; simpl; [constructor |].
  apply insert_sorted_sorted; try assumption.
  eapply Permutation_Forall; [| exact Hl]. symmetry. apply sort_floats_perm.
Qed.

Lemma nanmedian_is_median xs : is_median xs (nanmedian xs).
Proof.
  unfold nanmedian.
  set (present := filter (fun x => negb (is_nan x)) xs).
  exists (sort_floats present). split; [apply sort_floats_perm |].
  split.
  { apply sort_floats_sorted, Forall_forall. intros x Hx.
    apply filter_In in Hx as [_ Hx]. now apply negb_true_iff in Hx. }
  cbv zeta. generalize (sort_floats present) as s. intros s.
  split; [| split].
  - intros ->. reflexivity.
  - intros k E. rewrite E.
    replace (2 * k + 1)%nat with (S (2 * k)) by lia.
    rewrite Nat.odd_succ, Nat.even_mul. simpl orb. cbv iota.
    f_equal. symmetry. apply Nat.div_unique with 1%nat; lia.
  - intros k E. rewrite E.
    replace (2 * k + 2)%nat with (S (S (2 * k))) by lia.
    rewrite Nat.odd_succ, Nat.even_succ, Nat.odd_mul. simpl andb. cbv iota.
    replace (S (S (2 * k)) / 2)%nat with (k + 1)%nat
      by (apply Nat.div_unique with 0%nat; lia).
    now replace (k + 1 - 1)%nat with k by lia.
Qed.

Lemma median_axis1_curve df med :
  median_axis1 df = Ok med -> median_curve df med.
Proof.
  intros H. unfold median_axis1 in H.
  apply (map_result_ok _ 0%nat nan) in H as [Hl Hn].
  rewrite length_seq in Hl, Hn. split; [assumption |].
  intros i Hi. specialize (Hn i Hi). rewrite seq_nth in Hn by assumption.
  simpl in Hn. unfold median_row in Hn.
  destruct (as_floats (row df i)) as [xs | e]; [| discriminate].
  exists xs. split; [reflexivity |]. injection Hn as <-.
  apply nanmedian_is_median.
Qed.

(** ** File events *)

Lemma get_good_files_file_events W folder :
  forallb is_file_event (trace (get_good_files W folder)) = true.
Proof.
  unfold get_good_files, glob_, pd_read_csv. simpl.
  destruct (glob W _) as [| path rest]; [reflexivity |]. simpl.
  destruct (open_csv W path) as [lines |]; [| reflexivity]. simpl.
  destruct (read_csv lines _ _ _) as [df | e]; [| reflexivity]. simpl.
  destruct (query_eq0 df _) as [df' | e]; [| reflexivity]. simpl.
  destruct (getitem df' _) as [sr | e]; reflexivity.
Qed.

Lemma merge_step_file_events W folder acc fv :
  forallb is_file_event (trace (merge_step W folder acc fv)) = true.
Proof.
  destruct fv as [f | x]; [| reflexivity].
  destruct (glob W (cospectra_glob folder (pattern_of f)))
    as [| path rest] eqn:G.
  - now rewrite (merge_step_skip _ _ _ _ G).
  - now rewrite (merge_step_found _ _ _ _ _ _ G).
Qed.

Lemma merge_loop_file_events W folder l : forall acc,
  forallb is_file_event (trace (merge_loop W folder l acc)) = true.
Proof.
  induction l as [| fv l IH]; intros acc; [reflexivity |].
  cbn [merge_loop]. rewrite trace_bind.
  pose proof (merge_step_file_events W folder acc fv) as Hs.
  destruct (outcome (merge_step W folder acc fv)) as [acc' | e];
    [| assumption].
  rewrite forallb_app, Hs. apply IH.
Qed.

(** * Main results *)

(** C1 (amended).  On a full_output table that has the two columns,
    [get_good_files] returns the 'filename' entries of the rows whose
    'qc_co2_flux' equals 0, in row order: the file name of every row with
    flag 0 is returned, and every returned name is the file name of some
    row with flag 0.  When no two rows share a file name, a row's name is
    returned if and only if its flag is 0. *)
Theorem get_good_files_selects_flag0 (W : World) (folder path : string)
    (rest : list string) (lines : list (list value)) (df : DataFrame)
    (fn qc : Series) :
  glob W (folder ++ "/**full_output*.csv*") = path :: rest ->
  open_csv W path = Some lines ->
  read_csv lines (SkipList [0; 2]%nat) false None = Ok df ->
  getitem df "filename" = Ok fn ->
  getitem df "qc_co2_flux" = Ok qc ->
  exists good_files,
    outcome (get_good_files W folder) = Ok good_files /\
    good_files = filter_mask (map eq0 (s_values qc)) (s_values fn) /\
    (forall i, (i < nrows df)%nat ->
       eq0 (nth i (s_values qc) NaN) = true ->
       In (nth i (s_values fn) NaN) good_files) /\
    (forall v, In v good_files ->
       exists i, (i < nrows df)%nat /\ nth i (s_values fn) NaN = v /\
                 eq0 (nth i (s_values qc) NaN) = true) /\
    (NoDup (s_values fn) ->
     forall i, (i < nrows df)%nat ->
       (In (nth i (s_values fn) NaN) good_files <->
        eq0 (nth i (s_values qc) NaN) = true)).
Proof.
  intros G O R Hfn Hqc.
  pose proof (read_csv_wf _ _ _ _ _ R) as Hwf.
  pose proof (getitem_wf _ _ _ Hwf Hfn) as Wfn.
  pose proof (getitem_wf _ _ _ Hwf Hqc) as Wqc.
  pose proof (getitem_inv _ _ _ Hfn) as [Ifn _].
  pose proof (getitem_inv _ _ _ Hqc) as [Iqc _].
  unfold wf_series in Wfn, Wqc. rewrite Ifn in Wfn. rewrite Iqc in Wqc.
  fold (nrows df) in Wfn, Wqc.
  assert (Hlen : length (s_values qc) = length (s_values fn)) by congruence.
  exists (filter_mask (map eq0 (s_values qc)) (s_values fn)).
  split.
  { rewrite (get_good_files_found _ _ _ _ _ G O), R.
    rewrite (query_eq0_getitem _ _ _ Hqc), getitem_select_rows, Hfn.
    reflexivity. }
  split; [reflexivity |].
  assert (Hsel : forall v,
            In v (filter_mask (map eq0 (s_values qc)) (s_values fn)) <->
            exists i, (i < nrows df)%nat /\ nth i (s_values fn) NaN = v /\
                      eq0 (nth i (s_values qc) NaN) = true).
  { intros v. rewrite (filter_mask_map_In eq0 NaN NaN) by assumption.
    now rewrite Wfn. }
  split; [| split].
  - intros i Hi Hq. apply Hsel. exists i. auto.
  - intros v Hv. now apply Hsel.
  - intros Hnd i Hi. split.
    + intros Hv. apply Hsel in Hv as (j & Hj & Ej & Hq).
      assert (j = i); [| now subst j].
      apply (proj1 (NoDup_nth (s_values fn) NaN) Hnd); [lia | lia | exact Ej].
    + intros Hq. apply Hsel. exists i. auto.
Qed.

Lemma get_good_files_selects_flag0_witness :
  outcome (get_good_files Demo.world Demo.folder) = Ok Demo.good_files.
Proof.
  destruct (get_good_files_selects_flag0 Demo.world Demo.folder
              Demo.full_output_path [] Demo.full_output_lines
              (mkFrame
                 [VNum 0; VNum 1; VNum 2; VNum 3]
                 [ (VStr "filename",
                    [ VStr "MOFO_20190723_1200.dat";
                      VStr "MOFO_20190723_1230.dat";
                      VStr "MOFO_20190723_1300.dat";
                      VStr "MOFO_20190723_1330.dat" ]);
                   (VStr "daytime", [VNum 1; VNum 1; VNum 1; VNum 1]);
                   (VStr "qc_co2_flux", [VNum 0; VNum 1; VNum 0; VNum 0]) ])
              (mkSeries
                 [VNum 0; VNum 1; VNum 2; VNum 3]
                 [ VStr "MOFO_20190723_1200.dat";
                   VStr "MOFO_20190723_1230.dat";
                   VStr "MOFO_20190723_1300.dat";
                   VStr "MOFO_20190723_1330.dat" ])
              (mkSeries
                 [VNum 0; VNum 1; VNum 2; VNum 3]
                 [VNum 0; VNum 1; VNum 0; VNum 0])
              eq_refl eq_refl eq_refl eq_refl eq_refl)
    as (good_files & Hrun & Hsel & _).
  rewrite Hrun, Hsel. reflexivity.
Defined.

(** C1, as stated, fails: when two rows name the same raw file and only the
    first has flag 0, the name is returned, so the second row has its file
    name in the returned array although its flag is 1. *)
Lemma shared_filename_breaks_iff :
  ~ filename_returned_iff_flag0 Dup.world Dup.folder.
Proof.
  intros H.
  assert (Hrow : In (VStr "MOFO_20190723_1200.dat")
                    [VStr "MOFO_20190723_1200.dat"] <->
                 eq0 (VNum 1) = true).
  { apply (H Demo.full_output_path [] Dup.full_output_lines Dup.table
             (mkSeries (index Dup.table)
                [ VStr "MOFO_20190723_1200.dat";
                  VStr "MOFO_20190723_1200.dat" ])
             (mkSeries (index Dup.table) [VNum 0; VNum 1])
             [VStr "MOFO_20190723_1200.dat"]
             eq_refl eq_refl eq_refl eq_refl eq_refl eq_refl 1%nat).
    vm_compute. lia. }
  destruct Hrow as [Hrow _]. specialize (Hrow (or_introl eq_refl)).
  vm_compute in Hrow. discriminate.
Qed.

(** C2 (amended).  Reading a (co)spectra file turns every field equal to
    -9999 into a missing value, the frequency field included, and [dropna]
    then keeps exactly the rows that have no missing value in a data column
    (a column other than the frequency index).  So no -9999 is left in
    either merged table, labels included, and every value present in a
    merged column sits on the label of a row of its file that has no
    missing cell. *)
Theorem sentinel_rows_are_dropped :
  (forall v, is_sentinel v = true ->
             na_filter (Some (-9999)%float) v = NaN) /\
  (forall lines raw,
     read_csv lines (SkipFirst 12) true (Some (-9999)%float) = Ok raw ->
     (exists header rows,
        table_lines (SkipFirst 12) lines = header :: rows /\
        rows_of raw =
        map (read_row (Some (-9999)%float) (length (tl header))) rows) /\
     rows_of (dropna raw) = filter no_missing_cell (rows_of raw)) /\
  (forall W folder good_files gs gc,
     outcome (merge_good_files W good_files folder) = Ok (gs, gc) ->
     (forall v, In v (index gs) \/ In v (index gc) ->
                is_sentinel v = false) /\
     (forall key vals,
        In (key, vals) (columns gs) \/ In (key, vals) (columns gc) ->
        (forall v, In v vals -> is_sentinel v = false) /\
        (forall i, isna (nth i vals NaN) = false ->
           exists f df r,
             In (VStr f) good_files /\ key = VStr (pattern_of f) /\
             processed W folder f df /\ In r (rows_of df) /\
             no_missing_cell r = true /\
             label_eqb (fst r) (nth i (index gs) NaN) = true /\
             In (nth i vals NaN) (snd r)))).
Proof.
  split; [exact sentinel_is_missing |]. split.
  - intros lines raw R. split; [now apply read_csv_rows |].
    apply dropna_rows. eapply read_csv_wf; eassumption.
  - intros W folder good_files gs gc Hrun.
    destruct (merge_good_files_inv _ _ _ _ _ Hrun)
      as [Ii Il Ind Is Ic Ip Ir].
    split.
    + intros v Hv. rewrite <- Ii in Hv.
      assert (Hin : In v (index gs)) by tauto. clear Hv.
      destruct Ir as [Ir | (f & df & _ & Hp & Hi)];
        [rewrite Ir in Hin; destruct Hin |].
      rewrite Hi in Hin.
      apply frame_labels_in_rows in Hin as (r & Hr & <-).
      now destruct (processed_rows_clean _ _ _ _ _ Hp Hr).
    + intros key vals [Hc | Hc].
      * split.
        -- intros v Hv. eapply column_from_not_sentinel; eauto.
        -- intros i Hna. eapply column_from_cell; eauto.
      * split.
        -- intros v Hv. eapply column_from_not_sentinel; eauto.
        -- intros i Hna. rewrite Ii. eapply column_from_cell; eauto.
Qed.

Lemma sentinel_rows_are_dropped_witness :
  outcome (merge_good_files Demo.world Demo.good_files Demo.folder) =
    Ok (Demo.good_spectras, Demo.good_cospectras) /\
  forall v, In v (index Demo.good_spectras) -> is_sentinel v = false.
Proof.
  assert (H : outcome (merge_good_files Demo.world Demo.good_files
                         Demo.folder) =
              Ok (Demo.good_spectras, Demo.good_cospectras))
    by (vm_compute; reflexivity).
  split; [exact H |].
  destruct sentinel_rows_are_dropped as (_ & _ & Hm).
  destruct (Hm Demo.world Demo.folder Demo.good_files Demo.good_spectras
               Demo.good_cospectras H) as [Hi _].
  intros v Hv. apply Hi. now left.
Defined.

(** C2, as stated, fails: a row whose frequency field is -9999 has a missing
    value, yet [dropna] keeps it, and it reaches both merged tables under a
    missing label. *)
Lemma frequency_sentinel_row_is_kept :
  ~ drops_rows_with_any_missing_field BadFreq.spectra_lines /\
  outcome (merge_good_files BadFreq.world [VStr "MOFO_20190723_1200.dat"]
             BadFreq.folder) =
  Ok (mkFrame [VNum 0.1; NaN] [(VStr "20190723-1200", [VNum 1.5; VNum 2.5])],
      mkFrame [VNum 0.1; NaN]
              [(VStr "20190723-1200", [VNum 0.25; VNum 0.75])]).
Proof.
  split; [| vm_compute; reflexivity].
  intros H.
  destruct (H BadFreq.raw (NaN, [VNum 2.5; VNum 0.75])) as [Hl _].
  - vm_compute. reflexivity.
  - vm_compute. right. left. reflexivity.
  - vm_compute in Hl. discriminate.
Qed.

(** C3.  For a file name [f] of [good_files] that has a (co)spectra file,
    the pattern is made of the characters of [f] at positions 5..12, a
    hyphen, and the characters at positions -8..-5 (thirteen characters
    when [f] has at least thirteen); the directory search of the loop is
    made with that pattern, and both returned tables hold, under that
    pattern as column name, the series of the file the search found. *)
Theorem pattern_keys_glob_and_columns (W : World) (folder : string)
    (good_files : list value) (gs gc : DataFrame) (f : string) :
  outcome (merge_good_files W good_files folder) = Ok (gs, gc) ->
  In (VStr f) good_files ->
  glob W (folder ++ "/eddypro_full_cospectra/*" ++ pattern_of f ++ "*.csv")
    <> [] ->
  pattern_of f =
    chars_at f [5; 6; 7; 8; 9; 10; 11; 12]%Z ++ "-" ++
    chars_at f [-8; -7; -6; -5]%Z /\
  ((13 <= String.length f)%nat -> String.length (pattern_of f) = 13%nat) /\
  In (EvGlob (folder ++ "/eddypro_full_cospectra/*" ++ pattern_of f
                     ++ "*.csv"))
     (trace (merge_good_files W good_files folder)) /\
  exists df spec cospec svals cvals,
    processed W folder f df /\
    getitem df "f_nat*spec(ts)" = Ok spec /\
    getitem df "f_nat*cospec(w_ts)" = Ok cospec /\
    In (VStr (pattern_of f), svals) (columns gs) /\
    reindex spec (index gs) = Ok svals /\
    In (VStr (pattern_of f), cvals) (columns gc) /\
    reindex cospec (index gc) = Ok cvals.
Proof.
  intros Hrun Hin Hglob.
  pose proof (merge_good_files_inv _ _ _ _ _ Hrun) as [Ii Il Ind Is Ic Ip Ir].
  split; [apply pattern_of_chars |].
  split; [apply pattern_of_length |].
  split; [eapply (merge_loop_globs W folder); eassumption |].
  pose proof (Ip f Hin Hglob) as Hs.
  assert (Hc : In (VStr (pattern_of f)) (labels gc)) by now rewrite <- Il.
  unfold labels in Hs, Hc.
  apply in_map_iff in Hs as ([k svals] & Hk & Hs). simpl in Hk. subst k.
  apply in_map_iff in Hc as ([k cvals] & Hk & Hc). simpl in Hk. subst k.
  destruct (Is _ _ Hs) as (f1 & df1 & s1 & _ & E1 & P1 & G1 & R1 & _).
  destruct (Ic _ _ Hc) as (f2 & df2 & s2 & _ & E2 & P2 & G2 & R2 & _).
  injection E1 as E1. injection E2 as E2.
  assert (df2 = df1) as ->.
  { eapply processed_fun; [| exact P2 | exact P1]. congruence. }
  exists df1, s1, s2, svals, cvals.
  split; [eapply processed_same_pattern; eassumption |]. auto 10.
Qed.

Lemma pattern_keys_glob_and_columns_witness :
  pattern_of "MOFO_20190723_1200.dat" = "20190723-1200" /\
  In (EvGlob (Demo.folder ++ "/eddypro_full_cospectra/*20190723-1200*.csv"))
     (trace (merge_good_files Demo.world Demo.good_files Demo.folder)) /\
  In (VStr "20190723-1200") (labels Demo.good_spectras).
Proof.
  pose proof (pattern_keys_glob_and_columns Demo.world Demo.folder
                Demo.good_files Demo.good_spectras Demo.good_cospectras
                "MOFO_20190723_1200.dat") as H.
  destruct H as (_ & _ & Hg & _).
  - vm_compute. reflexivity.
  - left. reflexivity.
  - vm_compute. discriminate.
  - split; [reflexivity |]. split; [exact Hg |]. left. reflexivity.
Defined.

(** C4.  A successful [merge_good_files] returns two tables on the same
    frequency labels (those of a file that was read, unless there is no row
    at all); every column of the first is the 'f_nat*spec(ts)' series of a
    file found for a name of [good_files], every column of the second the
    'f_nat*cospec(w_ts)' series of such a file, laid out along those labels;
    the two tables carry the same column names, none of them twice, and the
    pattern of every name that has a file is among them. *)
Theorem merge_good_files_two_tables (W : World) (folder : string)
    (good_files : list value) (gs gc : DataFrame) :
  outcome (merge_good_files W good_files folder) = Ok (gs, gc) ->
  index gs = index gc /\
  (index gs = [] \/
   exists f df, In (VStr f) good_files /\ processed W folder f df /\
                index gs = index df) /\
  (forall key vals, In (key, vals) (columns gs) ->
     column_from W folder good_files "f_nat*spec(ts)" (index gs) key vals) /\
  (forall key vals, In (key, vals) (columns gc) ->
     column_from W folder good_files "f_nat*cospec(w_ts)" (index gc)
       key vals) /\
  labels gs = labels gc /\
  NoDup (labels gs) /\
  (forall f, In (VStr f) good_files ->
     glob W (cospectra_glob folder (pattern_of f)) <> [] ->
     In (VStr (pattern_of f)) (labels gs)).
Proof.
  intros Hrun.
  destruct (merge_good_files_inv _ _ _ _ _ Hrun) as [Ii Il Ind Is Ic Ip Ir].
  auto 10.
Qed.

Lemma merge_good_files_two_tables_witness :
  outcome (merge_good_files Demo.world Demo.good_files Demo.folder) =
    Ok (Demo.good_spectras, Demo.good_cospectras) /\
  labels Demo.good_spectras = labels Demo.good_cospectras /\
  NoDup (labels Demo.good_spectras).
Proof.
  assert (H : outcome (merge_good_files Demo.world Demo.good_files
                         Demo.folder) =
              Ok (Demo.good_spectras, Demo.good_cospectras))
    by (vm_compute; reflexivity).
  split; [exact H |].
  destruct (merge_good_files_two_tables Demo.world Demo.folder
              Demo.good_files Demo.good_spectras Demo.good_cospectras H)
    as (_ & _ & _ & _ & Hl & Hn & _).
  split; assumption.
Defined.

(** Splits membership in an explicit list of events into its cases. *)
Ltac event_cases H :=
  simpl in H;
  repeat (destruct H as [H | H]; [try discriminate H |]);
  try contradiction.

(** Splits membership in the trace of a plot function, rewritten with
    [plot_spectras_run] or [plot_cospectras_run], into the curves drawn,
    one by one, and the calls that dress the figure. *)
Ltac plot_cases W H :=
  match type of H with
  | context [median_axis1 ?df] =>
      destruct (median_axis1 df) as [?med | ?e];
      [ match type of H with
        | context [lowess W ?m ?i ?f ?n] =>
            destruct (lowess W m i f n) as [?sm | ?e]
        end;
        cbv zeta in H; cbn [trace fst] in H;
        [ apply in_app_or in H as [H | H];
          [ event_cases H
          | apply finish_styling in H; try discriminate H ]
        | event_cases H ]
      | event_cases H ]
  end.

(** C5.  In [plot_spectras] and in [plot_cospectras] alike, every series
    that is drawn and every curve handed to the smoother is the row-wise
    median of the table over its row labels; when the medians exist, that
    curve is drawn first and then handed to the smoother. *)
Theorem median_is_plotted_and_smoothed (W : World) (df : DataFrame)
    (outfile : option string) :
  plots_and_smooths_median df (trace (plot_spectras W df outfile)) /\
  plots_and_smooths_median df (trace (plot_cospectras W df outfile)) /\
  forall med, median_axis1 df = Ok med ->
    median_curve df med /\
    (exists t,
       trace (plot_spectras W df outfile) =
       EvFigure 1
       :: EvPlot (PlotSeries (index df) med) "k." (Some 0.05%float)
                 "median data with QC flag 0"
       :: EvLowess med (index df) 0.01%float 0 :: t) /\
    (exists t,
       trace (plot_cospectras W df outfile) =
       EvFigure 2
       :: EvPlot (PlotSeries (index df) med) "k." (Some 0.05%float)
                 "median data with QC flag 0"
       :: EvLowess med (index df) 0.05%float 0 :: t).
Proof.
  rewrite plot_spectras_run, plot_cospectras_run.
  destruct (median_axis1 df) as [med | e] eqn:Hm.
  - pose proof (median_axis1_curve _ _ Hm) as Hc.
    repeat split.
    + intros ev Hin.
      destruct (lowess W med (index df) 0.01%float 0) as [sm | e];
        cbv zeta in Hin; cbn [trace fst] in Hin.
      * apply in_app_or in Hin as [Hin | Hin].
        -- event_cases Hin; subst ev; simpl; auto.
        -- apply finish_styling in Hin.
           destruct ev; try discriminate Hin; exact I.
      * event_cases Hin; subst ev; simpl; auto.
    + intros ev Hin.
      destruct (lowess W med (index df) 0.05%float 0) as [sm | e];
        cbv zeta in Hin; cbn [trace fst] in Hin.
      * apply in_app_or in Hin as [Hin | Hin].
        -- event_cases Hin; subst ev; simpl; auto.
        -- apply finish_styling in Hin.
           destruct ev; try discriminate Hin; exact I.
      * event_cases Hin; subst ev; simpl; auto.
    + injection H as <-. apply Hc.
    + injection H as <-. apply Hc.
    + injection H as <-.
      destruct (lowess W med (index df) 0.01%float 0) as [sm | e];
        eexists; reflexivity.
    + injection H as <-.
      destruct (lowess W med (index df) 0.05%float 0) as [sm | e];
        eexists; reflexivity.
  - repeat split; try discriminate; intros ev Hin; event_cases Hin;
      subst ev; exact I.
Qed.

Lemma median_is_plotted_and_smoothed_witness :
  median_curve Demo.good_spectras [2.5; 2.5]%float /\
  In (EvLowess [2.5; 2.5]%float (index Demo.good_spectras) 0.01%float 0)
     (trace (plot_spectras Demo.world Demo.good_spectras None)).
Proof.
  destruct (median_is_plotted_and_smoothed Demo.world Demo.good_spectras
              None) as (_ & _ & H).
  destruct (H [2.5; 2.5]%float eq_refl) as (Hc & (t & Ht) & _).
  split; [exact Hc |]. rewrite Ht. right. right. left. reflexivity.
Defined.

(** C6.  [plot_spectras] draws two lines only, the median data and the
    lowess fit.  The line labelled '-4/3 slope' belongs to [plot_cospectras]
    alone: it is y = 0.006 * x ** (-4/3) over the 50 points of
    [linspace(0.2, 5)], which start at 0.2, end at 5 and stay in between,
    and it is drawn whenever [plot_cospectras] completes. *)
Theorem reference_curve_only_on_cospectrum (W : World) (df : DataFrame)
    (outfile : option string) :
  (forall data fmt alpha label,
     In (EvPlot data fmt alpha label) (trace (plot_spectras W df outfile)) ->
     label = "median data with QC flag 0" \/ label = "lowess fit") /\
  (forall data fmt alpha,
     In (EvPlot data fmt alpha "-4/3 slope")
        (trace (plot_cospectras W df outfile)) ->
     data = PlotXY (linspace 0.2 5 50)
                   (map (fun x => (0.006 * pow W x (-4 / 3))%float)
                        (linspace 0.2 5 50)) /\
     fmt = "r--" /\ alpha = None) /\
  (outcome (plot_cospectras W df outfile) = Ok tt ->
   In (EvPlot (PlotXY (linspace 0.2 5 50)
                      (map (fun x => (0.006 * pow W x (-4 / 3))%float)
                           (linspace 0.2 5 50)))
              "r--" None "-4/3 slope")
      (trace (plot_cospectras W df outfile))) /\
  length (linspace 0.2 5 50) = 50%nat /\
  hd nan (linspace 0.2 5 50) = 0.2%float /\
  last (linspace 0.2 5 50) nan = 5%float /\
  forallb (fun x => (0.2 <=? x)%float && (x <=? 5)%float)
          (linspace 0.2 5 50) = true.
Proof.
  rewrite plot_spectras_run, plot_cospectras_run.
  split; [| split; [| split]].
  - intros data fmt alpha label Hin.
    plot_cases W Hin; injection Hin as <- <- <- <-; auto.
  - intros data fmt alpha Hin.
    plot_cases W Hin; injection Hin as <- <- <-; auto.
  - intros Hok.
    destruct (median_axis1 df) as [med | e]; [| discriminate].
    destruct (lowess W med (index df) 0.05%float 0) as [sm | e];
      [| discriminate].
    cbv zeta. cbn [trace fst]. apply in_or_app. left.
    do 4 right. left. reflexivity.
  - repeat split; vm_compute; reflexivity.
Qed.

Lemma reference_curve_only_on_cospectrum_witness :
  outcome (plot_cospectras Demo.world Demo.good_cospectras None) = Ok tt /\
  In (EvPlot (PlotXY (linspace 0.2 5 50)
                     (map (fun x => (0.006 * pow Demo.world x (-4 / 3))%float)
                          (linspace 0.2 5 50)))
             "r--" None "-4/3 slope")
     (trace (plot_cospectras Demo.world Demo.good_cospectras None)).
Proof.
  assert (H : outcome (plot_cospectras Demo.world Demo.good_cospectras None)
              = Ok tt) by (vm_compute; reflexivity).
  split; [exact H |].
  destruct (reference_curve_only_on_cospectrum Demo.world
              Demo.good_cospectras None) as (_ & _ & Hin & _).
  exact (Hin H).
Defined.

(** C7.  A run of [main] that completes has called, once each and in this
    order, [get_good_files], [merge_good_files] on the names it returned,
    [plot_spectras] on the first merged table, [plot_cospectras] on the
    second, and [plt.show]: the trace of [main] is the traces of these
    calls one after the other.  The first two only search and read files;
    the plots open figure 1, then figure 2, and neither shows the figures. *)
Theorem main_runs_the_pipeline_in_order (W : World) :
  outcome (main W) = Ok tt ->
  exists good_files gs gc,
    outcome (get_good_files W ep_output) = Ok good_files /\
    outcome (merge_good_files W good_files ep_output) = Ok (gs, gc) /\
    outcome (plot_spectras W gs None) = Ok tt /\
    outcome (plot_cospectras W gc None) = Ok tt /\
    trace (main W) =
      (trace (get_good_files W ep_output) ++
       trace (merge_good_files W good_files ep_output) ++
       trace (plot_spectras W gs None) ++
       trace (plot_cospectras W gc None) ++ [EvShow])%list /\
    forallb is_file_event (trace (get_good_files W ep_output)) = true /\
    forallb is_file_event
      (trace (merge_good_files W good_files ep_output)) = true /\
    hd_error (trace (plot_spectras W gs None)) = Some (EvFigure 1) /\
    hd_error (trace (plot_cospectras W gc None)) = Some (EvFigure 2) /\
    ~ In EvShow (trace (plot_spectras W gs None)) /\
    ~ In EvShow (trace (plot_cospectras W gc None)).
Proof.
  intros H. unfold main in H.
  apply bind_ok_inv in H as (good_files & H1 & H).
  apply bind_ok_inv in H as ([gs gc] & H2 & H).
  apply bind_ok_inv in H as ([] & H3 & H).
  apply bind_ok_inv in H as ([] & H4 & _).
  simpl fst in *. simpl snd in *.
  exists good_files, gs, gc.
  split; [exact H1 |]. split; [exact H2 |]. split; [exact H3 |].
  split; [exact H4 |]. split; [| split; [| split; [| split; [| split;
    [| split]]]]].
  - unfold main. rewrite trace_bind, H1, trace_bind, H2.
    simpl fst. simpl snd. now rewrite trace_bind, H3, trace_bind, H4.
  - apply get_good_files_file_events.
  - apply merge_loop_file_events.
  - rewrite plot_spectras_run.
    destruct (median_axis1 gs);
      [destruct (lowess W _ _ _ _) |]; reflexivity.
  - rewrite plot_cospectras_run.
    destruct (median_axis1 gc);
      [destruct (lowess W _ _ _ _) |]; reflexivity.
  - rewrite plot_spectras_run. intros Hin. plot_cases W Hin.
  - rewrite plot_cospectras_run. intros Hin. plot_cases W Hin.
Qed.

Lemma main_runs_the_pipeline_in_order_witness :
  outcome (main Demo.world) = Ok tt /\
  exists good_files gs gc,
    outcome (get_good_files Demo.world ep_output) = Ok good_files /\
    outcome (merge_good_files Demo.world good_files ep_output) =
      Ok (gs, gc) /\
    trace (main Demo.world) =
      (trace (get_good_files Demo.world ep_output) ++
       trace (merge_good_files Demo.world good_files ep_output) ++
       trace (plot_spectras Demo.world gs None) ++
       trace (plot_cospectras Demo.world gc None) ++ [EvShow])%list.
Proof.
  assert (H : outcome (main Demo.world) = Ok tt)
    by (vm_compute; reflexivity).
  split; [exact H |].
  destruct (main_runs_the_pipeline_in_order Demo.world H)
    as (good_files & gs & gc & H1 & H2 & _ & _ & Ht & _).
  exists good_files, gs, gc. auto.
Defined.

(** C8.  A name without a (co)spectra file costs one directory search and
    changes nothing: the iteration returns the tables it was given, and the
    loop returns what it returns without that name.  So, after a successful
    run, a name of [good_files] has its column in either table if and only
    if the search for its pattern found a file. *)
Theorem unmatched_files_are_skipped (W : World) (folder : string) :
  (forall acc f,
     glob W (cospectra_glob folder (pattern_of f)) = [] ->
     merge_step W folder acc (VStr f) =
     ([EvGlob (cospectra_glob folder (pattern_of f))], Ok acc)) /\
  (forall pre post f,
     glob W (cospectra_glob folder (pattern_of f)) = [] ->
     outcome (merge_good_files W (pre ++ VStr f :: post) folder) =
     outcome (merge_good_files W (pre ++ post) folder)) /\
  (forall good_files gs gc f,
     outcome (merge_good_files W good_files folder) = Ok (gs, gc) ->
     In (VStr f) good_files ->
     (In (VStr (pattern_of f)) (labels gs) <->
      glob W (cospectra_glob folder (pattern_of f)) <> []) /\
     (In (VStr (pattern_of f)) (labels gc) <->
      glob W (cospectra_glob folder (pattern_of f)) <> [])).
Proof.
  split; [intros acc f H; now apply merge_step_skip |].
  split.
  - intros pre post f H. unfold merge_good_files.
    rewrite !merge_loop_app, !outcome_bind.
    destruct (outcome (merge_loop W folder pre (empty_frame, empty_frame)))
      as [acc | e]; [| reflexivity].
    cbn [merge_loop]. rewrite outcome_bind, merge_step_skip by assumption.
    reflexivity.
  - intros good_files gs gc f Hrun Hin.
    destruct (merge_good_files_inv _ _ _ _ _ Hrun)
      as [Ii Il Ind Is Ic Ip Ir].
    assert (Hs : In (VStr (pattern_of f)) (labels gs) <->
                 glob W (cospectra_glob folder (pattern_of f)) <> []).
    { split; [| now apply Ip].
      intros Hl. unfold labels in Hl.
      apply in_map_iff in Hl as ([k vals] & Hk & Hl). simpl in Hk. subst k.
      destruct (Is _ _ Hl) as (f1 & df1 & s1 & _ & E1 & P1 & _).
      injection E1 as E1.
      destruct P1 as (p & r & l & raw & G & _). rewrite E1, G.
      discriminate. }
    split; [exact Hs |]. now rewrite <- Il.
Qed.

Lemma unmatched_files_are_skipped_witness :
  glob Demo.world
    (cospectra_glob Demo.folder (pattern_of "MOFO_20190723_1300.dat")) = [] /\
  outcome (merge_good_files Demo.world Demo.good_files Demo.folder) =
  outcome (merge_good_files Demo.world
             [VStr "MOFO_20190723_1200.dat"; VStr "MOFO_20190723_1330.dat"]
             Demo.folder) /\
  ~ In (VStr "20190723-1300") (labels Demo.good_spectras).
Proof.
  assert (G : glob Demo.world
                (cospectra_glob Demo.folder
                   (pattern_of "MOFO_20190723_1300.dat")) = [])
    by (vm_compute; reflexivity).
  assert (R : outcome (merge_good_files Demo.world Demo.good_files
                         Demo.folder) =
              Ok (Demo.good_spectras, Demo.good_cospectras))
    by (vm_compute; reflexivity).
  destruct (unmatched_files_are_skipped Demo.world Demo.folder)
    as (_ & Hskip & Hiff).
  split; [exact G |]. split.
  - exact (Hskip [VStr "MOFO_20190723_1200.dat"]
                 [VStr "MOFO_20190723_1330.dat"]
                 "MOFO_20190723_1300.dat" G).
  - destruct (Hiff Demo.good_files Demo.good_spectras Demo.good_cospectras
                "MOFO_20190723_1300.dat" R) as [Hs _].
    + right. left. reflexivity.
    + intros Hl. apply Hs in Hl. apply Hl. exact G.
Defined.

(** C9.  [plot_spectras] calls the smoother with frac=0.01 and draws its
    output without the first 40 points; [plot_cospectras] calls it with
    frac=0.05 and draws all of its output.  Both set it=0. *)
Theorem smoothing_parameters_and_trim (W : World) (df : DataFrame)
    (outfile : option string) :
  (forall endog exog frac it,
     In (EvLowess endog exog frac it) (trace (plot_spectras W df outfile)) ->
     frac = 0.01%float /\ it = 0%nat) /\
  (forall endog exog frac it,
     In (EvLowess endog exog frac it)
        (trace (plot_cospectras W df outfile)) ->
     frac = 0.05%float /\ it = 0%nat) /\
  (forall med smoothed,
     median_axis1 df = Ok med ->
     lowess W med (index df) 0.01%float 0 = Ok smoothed ->
     In (EvLowess med (index df) 0.01%float 0)
        (trace (plot_spectras W df outfile)) /\
     (forall data fmt alpha,
        In (EvPlot data fmt alpha "lowess fit")
           (trace (plot_spectras W df outfile)) <->
        data = PlotXY (map fst (skipn 40 smoothed))
                      (map snd (skipn 40 smoothed)) /\
        fmt = "b" /\ alpha = None) /\
     length (skipn 40 smoothed) = (length smoothed - 40)%nat /\
     forall k d, nth k (skipn 40 smoothed) d = nth (40 + k) smoothed d) /\
  (forall med smoothed,
     median_axis1 df = Ok med ->
     lowess W med (index df) 0.05%float 0 = Ok smoothed ->
     In (EvLowess med (index df) 0.05%float 0)
        (trace (plot_cospectras W df outfile)) /\
     (forall data fmt alpha,
        In (EvPlot data fmt alpha "lowess fit")
           (trace (plot_cospectras W df outfile)) <->
        data = PlotXY (map fst smoothed) (map snd smoothed) /\
        fmt = "b" /\ alpha = None)) /\
  (0.01 =? 0.05)%float = false.
Proof.
  rewrite plot_spectras_run, plot_cospectras_run.
  split; [| split; [| split; [| split]]].
  - intros endog exog frac it Hin.
    plot_cases W Hin; injection Hin as <- <- <- <-; auto.
  - intros endog exog frac it Hin.
    plot_cases W Hin; injection Hin as <- <- <- <-; auto.
  - intros med sm -> ->. cbv zeta. cbn [trace fst].
    split; [apply in_or_app; left; simpl; auto |].
    split; [| split].
    + intros data fmt alpha. split.
      * intros Hin. apply in_app_or in Hin as [Hin | Hin].
        -- event_cases Hin; injection Hin as <- <- <-; auto.
        -- apply finish_styling in Hin. discriminate Hin.
      * intros (-> & -> & ->). apply in_or_app. left.
        do 3 right. left. reflexivity.
    + apply length_skipn.
    + intros k d. apply nth_skipn.
  - intros med sm -> ->. cbv zeta. cbn [trace fst].
    split; [apply in_or_app; left; simpl; auto |].
    intros data fmt alpha. split.
    + intros Hin. apply in_app_or in Hin as [Hin | Hin].
      * event_cases Hin; injection Hin as <- <- <-; auto.
      * apply finish_styling in Hin. discriminate Hin.
    + intros (-> & -> & ->). apply in_or_app. left.
      do 3 right. left. reflexivity.
  - reflexivity.
Qed.

Lemma smoothing_parameters_and_trim_witness :
  In (EvLowess [2.5; 2.5]%float (index Demo.good_spectras) 0.01%float 0)
     (trace (plot_spectras Demo.world Demo.good_spectras None)) /\
  In (EvPlot (PlotXY [0.1; 0.4]%float [0.75; 0.75]%float) "b" None
             "lowess fit")
     (trace (plot_cospectras Demo.world Demo.good_cospectras None)).
Proof.
  destruct (smoothing_parameters_and_trim Demo.world Demo.good_spectras None)
    as (_ & _ & Hs & _).
  destruct (smoothing_parameters_and_trim Demo.world Demo.good_cospectras
              None) as (_ & _ & _ & Hc & _).
  destruct (Hs [2.5; 2.5]%float [(0.1, 2.5); (0.4, 2.5)]%float
               eq_refl eq_refl) as (H1 & _).
  destruct (Hc [0.75; 0.75]%float [(0.1, 0.75); (0.4, 0.75)]%float
               eq_refl eq_refl) as (_ & H2).
  split; [exact H1 |]. apply H2. auto.
Defined.

(** * Further properties of the script *)

(** ** Column assignment keeps frames rectangular *)

Lemma index_equals_refl a : index_equals a a = true.
Proof.
  unfold index_equals. rewrite Nat.eqb_refl. simpl.
  induction a as [| l a IH]; simpl; [reflexivity |].
  now rewrite label_eqb_refl, IH.
Qed.

Lemma index_equals_length a b :
  index_equals a b = true -> length a = length b.
Proof.
  unfold index_equals. intros H. apply andb_true_iff in H as [H _].
  now apply Nat.eqb_eq.
Qed.

Lemma reindex_length s target vals :
  wf_series s -> (target = [] -> s_index s = []) ->
  reindex s target = Ok vals -> length vals = length target.
Proof.
  intros Hwf Hnil. unfold wf_series in Hwf. unfold reindex.
  destruct (index_equals (s_index s) target) eqn:E.
  - intros H. injection H as <-. apply index_equals_length in E. congruence.
  - destruct target as [| l target].
    + rewrite (Hnil eq_refl) in E. discriminate.
    + remember (l :: target) as t.
      destruct (is_unique (s_index s)); [| discriminate].
      intros H. injection H as <-. apply length_map.
Qed.

Lemma set_column_lengths n cols key vals :
  Forall (fun c => length (snd c) = n) cols -> length vals = n ->
  Forall (fun c : value * list value => length (snd c) = n)
         (set_column cols key vals).
Proof.
  intros Hc Hv. induction cols as [| c cols IH]; simpl.
  - constructor; [assumption | constructor].
  - inversion Hc; subst.
    destruct (label_eqb (fst c) key); constructor; auto.
Qed.

Lemma ensure_valid_index_wf df s :
  wf_frame df -> wf_frame (ensure_valid_index df s).
Proof.
  unfold wf_frame, ensure_valid_index, nrows.
  destruct (index df) as [| l idx] eqn:E; simpl; [| now rewrite E].
  intros _. apply Forall_map, Forall_forall. intros c _. simpl.
  apply length_map.
Qed.

Lemma setitem_wf df key s df' :
  wf_frame df -> wf_series s -> setitem df key s = Ok df' -> wf_frame df'.
Proof.
  intros Hdf Hs H.
  apply setitem_inv in H as (vals & Hre & Hidx & Hcols).
  unfold wf_frame, nrows. rewrite Hcols, Hidx.
  apply set_column_lengths; [apply (ensure_valid_index_wf df s Hdf) |].
  apply (reindex_length s); [assumption | | assumption].
  rewrite ensure_valid_index_index.
  destruct (index df); [auto | discriminate].
Qed.

Lemma assign_columns_ok_inv acc pattern df acc' :
  assign_columns acc pattern df = Ok acc' ->
  exists spec cospec,
    getitem df "f_nat*spec(ts)" = Ok spec /\
    getitem df "f_nat*cospec(w_ts)" = Ok cospec /\
    setitem (fst acc) (VStr pattern) spec = Ok (fst acc') /\
    setitem (snd acc) (VStr pattern) cospec = Ok (snd acc').
Proof.
  unfold assign_columns.
  destruct (getitem df "f_nat*spec(ts)") as [s1 |]; [| discriminate].
  destruct (setitem (fst acc) _ s1) as [gs |] eqn:S1; [| discriminate].
  destruct (getitem df "f_nat*cospec(w_ts)") as [s2 |]; [| discriminate].
  destruct (setitem (snd acc) _ s2) as [gc |] eqn:S2; [| discriminate].
  intros H. injection H as <-. exists s1, s2. auto.
Qed.

Lemma merge_step_wf W folder acc fv acc' :
  wf_frame (fst acc) -> wf_frame (snd acc) ->
  outcome (merge_step W folder acc fv) = Ok acc' ->
  wf_frame (fst acc') /\ wf_frame (snd acc').
Proof.
  intros H1 H2 H.
  apply merge_step_ok_inv in H as (f & -> & [[_ ->] | (df & Hp & Ha)]);
    [auto |].
  apply assign_columns_ok_inv in Ha as (s1 & s2 & G1 & G2 & S1 & S2).
  pose proof (processed_wf _ _ _ _ Hp) as Hdf.
  split.
  - eapply (setitem_wf (fst acc)); [assumption | | exact S1].
    eapply getitem_wf; eassumption.
  - eapply (setitem_wf (snd acc)); [assumption | | exact S2].
    eapply getitem_wf; eassumption.
Qed.

Lemma merge_loop_wf W folder l : forall acc acc',
  wf_frame (fst acc) -> wf_frame (snd acc) ->
  outcome (merge_loop W folder l acc) = Ok acc' ->
  wf_frame (fst acc') /\ wf_frame (snd acc').
Proof.
  induction l as [| fv l IH]; intros acc acc' H1 H2 H.
  - injection H as <-. auto.
  - simpl in H. apply bind_ok_inv in H as (acc1 & Hs & Hl).
    destruct (merge_step_wf _ _ _ _ _ H1 H2 Hs) as [W1 W2].
    eapply IH; eassumption.
Qed.

(** X6.  The two tables [merge_good_files] returns are rectangular: every
    column of either table has exactly one cell per frequency label. *)
Theorem merged_tables_are_rectangular (W : World) (folder : string)
    (good_files : list value) (gs gc : DataFrame) :
  outcome (merge_good_files W good_files folder) = Ok (gs, gc) ->
  (forall key vals, In (key, vals) (columns gs) ->
                    length vals = length (index gs)) /\
  (forall key vals, In (key, vals) (columns gc) ->
                    length vals = length (index gs)).
Proof.
  intros H.
  pose proof (merge_good_files_inv _ _ _ _ _ H) as [Ii _ _ _ _ _ _].
  assert (Hwf : wf_frame empty_frame) by constructor.
  destruct (merge_loop_wf W folder good_files (empty_frame, empty_frame)
              (gs, gc) Hwf Hwf H) as [W1 W2].
  unfold wf_frame, nrows in W1, W2. rewrite Forall_forall in W1, W2.
  simpl in W1, W2. split; intros key vals Hin.
  - apply (W1 _ Hin).
  - rewrite Ii. apply (W2 _ Hin).
Qed.

Lemma merged_tables_are_rectangular_witness :
  length [VNum 3.5; NaN] = length (index Demo.good_spectras).
Proof.
  assert (H : outcome (merge_good_files Demo.world Demo.good_files
                         Demo.folder) =
              Ok (Demo.good_spectras, Demo.good_cospectras))
    by (vm_compute; reflexivity).
  destruct (merged_tables_are_rectangular Demo.world Demo.folder
              Demo.good_files Demo.good_spectras Demo.good_cospectras H)
    as [Hs _].
  apply (Hs (VStr "20190723-1330")). right. left. reflexivity.
Defined.

(** ** What a successful merge has gone through *)

Lemma merge_step_trace W folder acc fv :
  trace (merge_step W folder acc fv) = lookup_events W folder fv.
Proof.
  destruct fv as [f | x]; [| reflexivity]. unfold lookup_events.
  destruct (glob W (cospectra_glob folder (pattern_of f)))
    as [| path rest] eqn:G.
  - now rewrite (merge_step_skip _ _ _ _ G).
  - now rewrite (merge_step_found _ _ _ _ _ _ G).
Qed.

Lemma merge_loop_trace W folder l : forall acc acc',
  outcome (merge_loop W folder l acc) = Ok acc' ->
  trace (merge_loop W folder l acc) = flat_map (lookup_events W folder) l.
Proof.
  induction l as [| fv l IH]; intros acc acc' H; [reflexivity |].
  cbn [merge_loop flat_map] in *. rewrite trace_bind.
  apply bind_ok_inv in H as (acc1 & H1 & H2).
  rewrite H1, merge_step_trace. f_equal. eapply IH; eassumption.
Qed.

(** X5.  A successful [merge_good_files] asks the file system, for each
    name in turn, one directory search for its pattern and, when the search
    finds something, one reading of the first file found; it does nothing
    else, so it reads exactly as many files as there are names with a
    (co)spectra file. *)
Theorem merge_lookups_in_order (W : World) (folder : string)
    (good_files : list value) (tables : DataFrame * DataFrame) :
  outcome (merge_good_files W good_files folder) = Ok tables ->
  trace (merge_good_files W good_files folder) =
    flat_map (lookup_events W folder) good_files /\
  length (filter (fun e => match e with EvReadCsv _ => true | _ => false end)
                 (trace (merge_good_files W good_files folder))) =
    length (filter (has_file W folder) good_files) /\
  length (filter (fun e => match e with EvGlob _ => true | _ => false end)
                 (trace (merge_good_files W good_files folder))) =
    length (filter (fun v => match v with VStr _ => true | _ => false end)
                   good_files).
Proof.
  intros H. unfold merge_good_files in *.
  rewrite (merge_loop_trace _ _ _ _ _ H). split; [reflexivity |].
  clear H. split.
  - induction good_files as [| v l IH]; [reflexivity |].
    cbn [flat_map]. rewrite filter_app, length_app, IH.
    cbn [filter]. destruct v as [f | x]; [| reflexivity].
    unfold lookup_events, has_file.
    destruct (glob W (cospectra_glob folder (pattern_of f))); reflexivity.
  - induction good_files as [| v l IH]; [reflexivity |].
    cbn [flat_map]. rewrite filter_app, length_app, IH.
    cbn [filter]. destruct v as [f | x]; [| reflexivity].
    unfold lookup_events.
    destruct (glob W (cospectra_glob folder (pattern_of f))); reflexivity.
Qed.

Lemma merge_lookups_in_order_witness :
  length (filter (fun e => match e with EvReadCsv _ => true | _ => false end)
                 (trace (merge_good_files Demo.world Demo.good_files
                           Demo.folder))) = 2%nat.
Proof.
  assert (H : outcome (merge_good_files Demo.world Demo.good_files
                         Demo.folder) =
              Ok (Demo.good_spectras, Demo.good_cospectras))
    by (vm_compute; reflexivity).
  destruct (merge_lookups_in_order Demo.world Demo.folder Demo.good_files
              _ H) as (_ & Hr & _).
  rewrite Hr. reflexivity.
Defined.

Lemma merge_loop_requirements W folder l : forall acc acc',
  outcome (merge_loop W folder l acc) = Ok acc' ->
  forall v, In v l ->
    exists f, v = VStr f /\
      (glob W (cospectra_glob folder (pattern_of f)) = [] \/
       exists df spec cospec,
         processed W folder f df /\
         getitem df "f_nat*spec(ts)" = Ok spec /\
         getitem df "f_nat*cospec(w_ts)" = Ok cospec).
Proof.
  induction l as [| fv l IH]; intros acc acc' H v Hin; [destruct Hin |].
  simpl in H. apply bind_ok_inv in H as (acc1 & H1 & H2).
  destruct Hin as [<- | Hin]; [| eapply IH; eassumption].
  apply merge_step_ok_inv in H1 as (f & -> & [[G _] | (df & Hp & Ha)]).
  - exists f. auto.
  - apply assign_columns_ok_inv in Ha as (s1 & s2 & G1 & G2 & _).
    exists f. split; [reflexivity |]. right. exists df, s1, s2. auto.
Qed.

(** X4.  [merge_good_files] completes only if every entry of [good_files]
    is a string and every file found for one of them can be opened, parses
    with a header, and has both the 'f_nat*spec(ts)' and the
    'f_nat*cospec(w_ts)' column: apart from a missing file, nothing is
    caught. *)
Theorem merge_success_requirements (W : World) (folder : string)
    (good_files : list value) (tables : DataFrame * DataFrame) (v : value) :
  outcome (merge_good_files W good_files folder) = Ok tables ->
  In v good_files ->
  exists f, v = VStr f /\
    (glob W (cospectra_glob folder (pattern_of f)) = [] \/
     exists path rest lines raw spec cospec,
       glob W (cospectra_glob folder (pattern_of f)) = path :: rest /\
       open_csv W path = Some lines /\
       read_csv lines (SkipFirst 12) true (Some (-9999)%float) = Ok raw /\
       getitem (dropna raw) "f_nat*spec(ts)" = Ok spec /\
       getitem (dropna raw) "f_nat*cospec(w_ts)" = Ok cospec).
Proof.
  intros H Hin.
  destruct (merge_loop_requirements _ _ _ _ _ H v Hin)
    as (f & -> & [G | (df & s1 & s2 & Hp & G1 & G2)]).
  - exists f. auto.
  - destruct Hp as (path & rest & lines & raw & G & O & R & ->).
    exists f. split; [reflexivity |]. right.
    exists path, rest, lines, raw, s1, s2. auto 10.
Qed.

Lemma merge_success_requirements_witness :
  exists f, VStr "MOFO_20190723_1330.dat" = VStr f /\
    (glob Demo.world (cospectra_glob Demo.folder (pattern_of f)) = [] \/
     exists path rest lines raw spec cospec,
       glob Demo.world (cospectra_glob Demo.folder (pattern_of f)) =
         path :: rest /\
       open_csv Demo.world path = Some lines /\
       read_csv lines (SkipFirst 12) true (Some (-9999)%float) = Ok raw /\
       getitem (dropna raw) "f_nat*spec(ts)" = Ok spec /\
       getitem (dropna raw) "f_nat*cospec(w_ts)" = Ok cospec).
Proof.
  apply (merge_success_requirements Demo.world Demo.folder Demo.good_files
           (Demo.good_spectras, Demo.good_cospectras)).
  - vm_compute. reflexivity.
  - right. right. left. reflexivity.
Defined.

(** ** The frequency labels of the merged tables *)

Lemma setitem_keeps_index df key s df' :
  index df <> [] -> setitem df key s = Ok df' -> index df' = index df.
Proof.
  intros Hne H. apply setitem_inv in H as (vals & _ & Hidx & _).
  rewrite Hidx, ensure_valid_index_index.
  destruct (index df); [contradiction | reflexivity].
Qed.

Lemma setitem_takes_index df key s df' :
  index df = [] -> setitem df key s = Ok df' -> index df' = s_index s.
Proof.
  intros He H. apply setitem_inv in H as (vals & _ & Hidx & _).
  now rewrite Hidx, ensure_valid_index_index, He.
Qed.

Lemma merge_loop_keeps_index W folder l : forall acc acc',
  index (fst acc) <> [] -> index (snd acc) <> [] ->
  outcome (merge_loop W folder l acc) = Ok acc' ->
  index (fst acc') = index (fst acc) /\ index (snd acc') = index (snd acc).
Proof.
  induction l as [| fv l IH]; intros acc acc' N1 N2 H.
  - injection H as <-. auto.
  - simpl in H. apply bind_ok_inv in H as (acc1 & Hs & Hl).
    assert (E : index (fst acc1) = index (fst acc) /\
                index (snd acc1) = index (snd acc)).
    { apply merge_step_ok_inv in Hs as (f & -> & [[_ ->] | (df & _ & Ha)]);
        [auto |].
      apply assign_columns_ok_inv in Ha as (s1 & s2 & _ & _ & S1 & S2).
      split; eapply setitem_keeps_index; eassumption. }
    destruct E as [E1 E2].
    destruct (IH acc1 acc') as [I1 I2]; try congruence.
    split; congruence.
Qed.

Lemma merge_loop_no_rows W folder l : forall acc acc',
  (forall f df, In (VStr f) l -> processed W folder f df -> index df = []) ->
  index (fst acc) = [] -> index (snd acc) = [] ->
  outcome (merge_loop W folder l acc) = Ok acc' ->
  index (fst acc') = [] /\ index (snd acc') = [].
Proof.
  induction l as [| fv l IH]; intros acc acc' Hl E1 E2 H.
  - injection H as <-. auto.
  - simpl in H. apply bind_ok_inv in H as (acc1 & Hs & Hr).
    assert (E : index (fst acc1) = [] /\ index (snd acc1) = []).
    { apply merge_step_ok_inv in Hs as (f & -> & [[_ ->] | (df & Hp & Ha)]);
        [auto |].
      apply assign_columns_ok_inv in Ha as (s1 & s2 & G1 & G2 & S1 & S2).
      apply getitem_inv in G1 as [I1 _]. apply getitem_inv in G2 as [I2 _].
      rewrite (setitem_takes_index _ _ _ _ E1 S1),
              (setitem_takes_index _ _ _ _ E2 S2), I1, I2.
      split; apply (Hl f df); auto; now left. }
    destruct E as [F1 F2]. apply (IH acc1 acc'); auto.
    intros f df Hin. apply Hl. now right.
Qed.

(** X7.  The frequency labels of both merged tables are those of the first
    file that still has a row after [dropna]; files merged later are laid
    out along these labels and never add or remove a frequency. *)
Theorem first_file_fixes_frequencies (W : World) (folder : string)
    (before after : list value) (f : string) (df gs gc : DataFrame) :
  (forall f' df', In (VStr f') before -> processed W folder f' df' ->
                  index df' = []) ->
  processed W folder f df ->
  index df <> [] ->
  outcome (merge_good_files W (before ++ VStr f :: after) folder) =
    Ok (gs, gc) ->
  index gs = index df /\ index gc = index df.
Proof.
  intros Hb Hp Hne H. unfold merge_good_files in H.
  rewrite merge_loop_app in H. apply bind_ok_inv in H as (acc1 & H1 & H2).
  destruct (merge_loop_no_rows W folder before (empty_frame, empty_frame)
              acc1 Hb eq_refl eq_refl H1) as [E1 E2].
  cbn [merge_loop] in H2. apply bind_ok_inv in H2 as (acc2 & Hs & Hl).
  apply merge_step_ok_inv in Hs as (f0 & Ef & [[G _] | (df0 & Hp0 & Ha)]).
  - injection Ef as <-. destruct Hp as (p & r & _ & _ & G' & _).
    rewrite G in G'. discriminate.
  - injection Ef as <-.
    assert (df0 = df) as -> by (eapply processed_fun; eauto).
    apply assign_columns_ok_inv in Ha as (s1 & s2 & G1 & G2 & S1 & S2).
    apply getitem_inv in G1 as [I1 _]. apply getitem_inv in G2 as [I2 _].
    pose proof (setitem_takes_index _ _ _ _ E1 S1) as T1.
    pose proof (setitem_takes_index _ _ _ _ E2 S2) as T2.
    destruct (merge_loop_keeps_index W folder after acc2 (gs, gc))
      as [K1 K2]; try congruence.
    simpl in K1, K2. split; congruence.
Qed.

Lemma first_file_fixes_frequencies_witness :
  index Demo.good_spectras = [VNum 0.1; VNum 0.4] /\
  index Demo.good_cospectras = [VNum 0.1; VNum 0.4].
Proof.
  apply (first_file_fixes_frequencies Demo.world Demo.folder []
           [VStr "MOFO_20190723_1300.dat"; VStr "MOFO_20190723_1330.dat"]
           "MOFO_20190723_1200.dat"
           (mkFrame [VNum 0.1; VNum 0.4]
              [ (VStr "f_nat*spec(ts)", [VNum 1.5; VNum 2.5]);
                (VStr "f_nat*cospec(w_ts)", [VNum 0.25; VNum 0.75]) ])).
  - intros f' df' [].
  - exists (Demo.spectra_path "20190723-1200"), [], Demo.spectra_1200,
      (mkFrame [VNum 0.1; VNum 0.2; VNum 0.4]
         [ (VStr "f_nat*spec(ts)", [VNum 1.5; NaN; VNum 2.5]);
           (VStr "f_nat*cospec(w_ts)", [VNum 0.25; VNum 0.5; VNum 0.75]) ]).
    repeat split; vm_compute; reflexivity.
  - discriminate.
  - vm_compute. reflexivity.
Defined.

(** ** How many columns *)

Lemma set_column_length cols key vals :
  (length (set_column cols key vals) <= S (length cols))%nat.
Proof.
  induction cols as [| c cols IH]; simpl; [lia |].
  destruct (label_eqb (fst c) key); simpl; lia.
Qed.

Lemma setitem_columns_length df key s df' :
  setitem df key s = Ok df' ->
  (length (columns df') <= S (length (columns df)))%nat.
Proof.
  intros H. apply setitem_inv in H as (vals & _ & _ & Hc). rewrite Hc.
  etransitivity; [apply set_column_length |].
  pose proof (ensure_valid_index_labels df s) as E.
  apply (f_equal (@length value)) in E. unfold labels in E.
  rewrite !length_map in E. lia.
Qed.

Lemma merge_loop_columns W folder l : forall acc acc',
  outcome (merge_loop W folder l acc) = Ok acc' ->
  (length (columns (fst acc')) <=
   length (columns (fst acc)) + length (filter (has_file W folder) l))%nat /\
  (length (columns (snd acc')) <=
   length (columns (snd acc)) + length (filter (has_file W folder) l))%nat.
Proof.
  induction l as [| fv l IH]; intros acc acc' H.
  - injection H as <-. simpl. lia.
  - simpl in H. apply bind_ok_inv in H as (acc1 & Hs & Hl).
    destruct (IH _ _ Hl) as [I1 I2]. cbn [filter].
    apply merge_step_ok_inv in Hs as (f & -> & [[G ->] | (df & Hp & Ha)]).
    + assert (Hf : has_file W folder (VStr f) = false)
        by (unfold has_file; now rewrite G).
      rewrite Hf. auto.
    + destruct Hp as (p & r & _ & _ & G & _).
      assert (Hf : has_file W folder (VStr f) = true)
        by (unfold has_file; now rewrite G).
      rewrite Hf. cbn [length].
      apply assign_columns_ok_inv in Ha as (s1 & s2 & _ & _ & S1 & S2).
      apply setitem_columns_length in S1, S2. lia.
Qed.

(** X8.  Either merged table has at most one column per name that has a
    (co)spectra file; names without a file contribute none. *)
Theorem merged_columns_bounded (W : World) (folder : string)
    (good_files : list value) (gs gc : DataFrame) :
  outcome (merge_good_files W good_files folder) = Ok (gs, gc) ->
  (length (columns gs) <= length (filter (has_file W folder) good_files))%nat
  /\
  (length (columns gc) <= length (filter (has_file W folder) good_files))%nat.
Proof.
  intros H. apply merge_loop_columns in H. simpl in H. exact H.
Qed.

Lemma merged_columns_bounded_witness :
  (length (columns Demo.good_spectras) <= 2)%nat.
Proof.
  assert (H : outcome (merge_good_files Demo.world Demo.good_files
                         Demo.folder) =
              Ok (Demo.good_spectras, Demo.good_cospectras))
    by (vm_compute; reflexivity).
  destruct (merged_columns_bounded Demo.world Demo.folder Demo.good_files
              Demo.good_spectras Demo.good_cospectras H) as [Hs _].
  exact Hs.
Defined.

(** ** A name listed twice *)

Lemma set_column_same cols p vals :
  NoDup (map fst cols) -> In (VStr p, vals) cols ->
  set_column cols (VStr p) vals = cols.
Proof.
  induction cols as [| c cols IH]; intros Hnd Hin; [destruct Hin |].
  simpl in Hnd. inversion Hnd as [| ? ? Hnotin Hnd']; subst. simpl.
  destruct (label_eqb (fst c) (VStr p)) eqn:E.
  - apply label_eqb_VStr in E. destruct Hin as [-> | Hin]; [reflexivity |].
    exfalso. apply Hnotin. rewrite E.
    apply in_map_iff. exists (VStr p, vals). auto.
  - destruct Hin as [-> | Hin].
    + simpl in E. rewrite String.eqb_refl in E. discriminate.
    + now rewrite IH.
Qed.

Lemma setitem_same g p s vals :
  wf_frame g -> NoDup (labels g) -> In (VStr p, vals) (columns g) ->
  reindex s (index g) = Ok vals -> (index g = [] -> s_index s = []) ->
  setitem g (VStr p) s = Ok g.
Proof.
  intros Hwf Hnd Hin Hre Hnil.
  assert (E : ensure_valid_index g s = g).
  { unfold ensure_valid_index. destruct g as [idx cols]. simpl in *.
    destruct idx as [| l idx]; [| reflexivity].
    rewrite (Hnil eq_refl). f_equal. simpl.
    rewrite <- (map_id cols) at 2. apply map_ext_in. intros [k v] Hc.
    unfold wf_frame, nrows in Hwf. simpl in Hwf.
    rewrite Forall_forall in Hwf. specialize (Hwf _ Hc). simpl in *.
    destruct v; [reflexivity | discriminate]. }
  unfold setitem. rewrite E, Hre, set_column_same by assumption.
  now destruct g.
Qed.

Lemma merged_column_of W folder good_files gs gc f df :
  merge_inv W folder good_files gs gc ->
  In (VStr f) good_files -> processed W folder f df ->
  exists spec cospec svals cvals,
    getitem df "f_nat*spec(ts)" = Ok spec /\
    getitem df "f_nat*cospec(w_ts)" = Ok cospec /\
    In (VStr (pattern_of f), svals) (columns gs) /\
    reindex spec (index gs) = Ok svals /\
    (index gs = [] -> s_index spec = []) /\
    In (VStr (pattern_of f), cvals) (columns gc) /\
    reindex cospec (index gc) = Ok cvals /\
    (index gc = [] -> s_index cospec = []).
Proof.
  intros [Ii Il Ind Is Ic Ip Ir] Hin Hp.
  assert (Hs : In (VStr (pattern_of f)) (labels gs)).
  { apply Ip; [assumption |]. destruct Hp as (p & r & _ & _ & G & _).
    rewrite G. discriminate. }
  assert (Hc : In (VStr (pattern_of f)) (labels gc)) by now rewrite <- Il.
  unfold labels in Hs, Hc.
  apply in_map_iff in Hs as ([k svals] & Hk & Hs). simpl in Hk. subst k.
  apply in_map_iff in Hc as ([k cvals] & Hk & Hc). simpl in Hk. subst k.
  destruct (Is _ _ Hs) as (f1 & df1 & s1 & _ & E1 & P1 & G1 & R1 & N1).
  destruct (Ic _ _ Hc) as (f2 & df2 & s2 & _ & E2 & P2 & G2 & R2 & N2).
  injection E1 as E1. injection E2 as E2.
  assert (df1 = df) as -> by (eapply processed_fun; [| exact P1 | exact Hp];
                              congruence).
  assert (df2 = df) as -> by (eapply processed_fun; [| exact P2 | exact Hp];
                              congruence).
  exists s1, s2, svals, cvals. auto 10.
Qed.

(** X9.  Listing once more, at the end of [good_files], a name that is
    already in it changes neither merged table: the second assignment
    rewrites the column it finds with the same cells. *)
Theorem repeated_name_changes_nothing (W : World) (folder : string)
    (good_files : list value) (f : string) (gs gc : DataFrame) :
  outcome (merge_good_files W good_files folder) = Ok (gs, gc) ->
  In (VStr f) good_files ->
  outcome (merge_good_files W (good_files ++ [VStr f]) folder) = Ok (gs, gc).
Proof.
  intros H Hin.
  pose proof (merge_good_files_inv _ _ _ _ _ H) as Inv.
  assert (Hwf : wf_frame empty_frame) by constructor.
  destruct (merge_loop_wf W folder good_files (empty_frame, empty_frame)
              (gs, gc) Hwf Hwf H) as [W1 W2]. simpl in W1, W2.
  destruct (merge_loop_requirements _ _ _ _ _ H _ Hin)
    as (f0 & Ef & Hreq). injection Ef as <-.
  unfold merge_good_files in *.
  rewrite merge_loop_app, outcome_bind, H. cbn [merge_loop].
  rewrite outcome_bind.
  destruct Hreq as [G | (df & s1 & s2 & Hp & G1 & G2)].
  - now rewrite (merge_step_skip _ _ _ _ G).
  - destruct (merged_column_of _ _ _ _ _ _ _ Inv Hin Hp)
      as (s1' & s2' & svals & cvals & G1' & G2' & Cs & Rs & Ns & Cc & Rc & Nc).
    rewrite G1 in G1'. injection G1' as <-.
    rewrite G2 in G2'. injection G2' as <-.
    destruct Inv as [Ii Il Ind _ _ _ _].
    destruct Hp as (path & rest & lines & raw & G & O & R & ->).
    rewrite (merge_step_found _ _ _ _ _ _ G). unfold outcome at 1. simpl snd.
    rewrite O, R. unfold assign_columns. simpl fst. simpl snd.
    rewrite G1, (setitem_same gs _ s1 svals) by assumption.
    rewrite G2, (setitem_same gc _ s2 cvals)
      by (try assumption; now rewrite <- Il).
    reflexivity.
Qed.

Lemma repeated_name_changes_nothing_witness :
  outcome (merge_good_files Demo.world
             (Demo.good_files ++ [VStr "MOFO_20190723_1330.dat"])
             Demo.folder) =
  Ok (Demo.good_spectras, Demo.good_cospectras).
Proof.
  apply (repeated_name_changes_nothing Demo.world Demo.folder
           Demo.good_files "MOFO_20190723_1330.dat").
  - vm_compute. reflexivity.
  - right. right. left. reflexivity.
Defined.

(** ** [get_good_files]: missing file, missing columns, how many names *)

Lemma get_good_files_none W folder :
  glob W (folder ++ "/**full_output*.csv*") = [] ->
  get_good_files W folder =
  ([EvGlob (folder ++ "/**full_output*.csv*")], Raise IndexError).
Proof.
  intros G. unfold get_good_files, glob_. simpl. rewrite G. reflexivity.
Qed.

(** X1.  Without a full_output file in the folder, [get_good_files] raises
    IndexError after its one directory search, and [main] ends there with
    the same exception: nothing is read, merged, plotted or shown. *)
Theorem main_stops_without_full_output (W : World) :
  glob W (ep_output ++ "/**full_output*.csv*") = [] ->
  get_good_files W ep_output =
    ([EvGlob (ep_output ++ "/**full_output*.csv*")], Raise IndexError) /\
  main W =
    ([EvGlob (ep_output ++ "/**full_output*.csv*")], Raise IndexError).
Proof.
  intros G.
  assert (H : get_good_files W ep_output =
              ([EvGlob (ep_output ++ "/**full_output*.csv*")],
               Raise IndexError)).
  { now apply get_good_files_none. }
  split; [exact H |]. unfold main. rewrite H. reflexivity.
Qed.

Lemma main_stops_without_full_output_witness :
  outcome (main NoOutput.world) = Raise IndexError.
Proof.
  destruct (main_stops_without_full_output NoOutput.world eq_refl)
    as [_ H].
  rewrite H. reflexivity.
Defined.

(** X2.  On a full_output table without a 'qc_co2_flux' column the query
    fails with a NameError naming the column, before the file names are
    looked at; with that column but no 'filename' column the lookup fails
    with a KeyError. *)
Theorem get_good_files_missing_columns (W : World) (folder path : string)
    (rest : list string) (lines : list (list value)) (df : DataFrame) :
  glob W (folder ++ "/**full_output*.csv*") = path :: rest ->
  open_csv W path = Some lines ->
  read_csv lines (SkipList [0; 2]%nat) false None = Ok df ->
  (~ In (VStr "qc_co2_flux") (labels df) ->
   outcome (get_good_files W folder) = Raise (NameError "qc_co2_flux")) /\
  (In (VStr "qc_co2_flux") (labels df) ->
   ~ In (VStr "filename") (labels df) ->
   outcome (get_good_files W folder) = Raise (KeyError "filename")).
Proof.
  intros G O R. rewrite (get_good_files_found _ _ _ _ _ G O), R.
  unfold outcome. simpl snd.
  assert (Hfind : forall name,
            (~ In (VStr name) (labels df) ->
             find (fun c => label_eqb (fst c) (VStr name)) (columns df) =
             None) /\
            (In (VStr name) (labels df) ->
             exists c,
               find (fun c => label_eqb (fst c) (VStr name)) (columns df) =
               Some c)).
  { intros name. unfold labels.
    induction (columns df) as [| c cols IH]; simpl.
    - split; [reflexivity | intros []].
    - destruct (label_eqb (fst c) (VStr name)) eqn:E.
      + split; [| eauto]. intros Hn. exfalso. apply Hn. left.
        now apply label_eqb_VStr.
      + destruct IH as [IH1 IH2]. split; [intros Hn; apply IH1; tauto |].
        intros [Hc | Hin]; [| auto].
        rewrite Hc in E. simpl in E. rewrite String.eqb_refl in E.
        discriminate. }
  split.
  - intros Hq. unfold query_eq0.
    now rewrite (proj1 (Hfind "qc_co2_flux") Hq).
  - intros Hq Hf. unfold query_eq0.
    destruct (proj2 (Hfind "qc_co2_flux") Hq) as (c & ->).
    rewrite getitem_select_rows. unfold getitem.
    now rewrite (proj1 (Hfind "filename") Hf).
Qed.

Lemma get_good_files_missing_columns_witness :
  outcome (get_good_files
             (NoColumn.world_with NoColumn.lines_without_flag)
             NoColumn.folder) = Raise (NameError "qc_co2_flux") /\
  outcome (get_good_files
             (NoColumn.world_with NoColumn.lines_without_filename)
             NoColumn.folder) = Raise (KeyError "filename").
Proof.
  split.
  - refine (proj1 (get_good_files_missing_columns
                     (NoColumn.world_with NoColumn.lines_without_flag)
                     NoColumn.folder Demo.full_output_path []
                     NoColumn.lines_without_flag
                     (mkFrame [VNum 0]
                        [ (VStr "filename", [VStr "MOFO_20190723_1200.dat"]);
                          (VStr "daytime", [VNum 1]) ])
                     eq_refl eq_refl eq_refl) _).
    vm_compute. intros [H | [H | []]]; discriminate.
  - refine (proj2 (get_good_files_missing_columns
                     (NoColumn.world_with NoColumn.lines_without_filename)
                     NoColumn.folder Demo.full_output_path []
                     NoColumn.lines_without_filename
                     (mkFrame [VNum 0]
                        [ (VStr "daytime", [VNum 1]);
                          (VStr "qc_co2_flux", [VNum 0]) ])
                     eq_refl eq_refl eq_refl) _ _).
    + right. left. reflexivity.
    + vm_compute. intros [H | [H | []]]; discriminate.
Defined.

Lemma filter_mask_map_length {A B : Type} (p : B -> bool) (keys : list B) :
  forall l : list A, length keys = length l ->
  length (filter_mask (map p keys) l) = length (filter p keys).
Proof.
  induction keys as [| k keys IH]; intros [| x l] H; simpl in *;
    try discriminate; [reflexivity |].
  injection H as H. destruct (p k); simpl; now rewrite IH.
Qed.

(** X3.  [get_good_files] returns one entry per row whose flag is 0, so as
    many names as there are such rows (a name shared by several of them is
    returned once for each), and never more than the table has rows. *)
Theorem get_good_files_count (W : World) (folder path : string)
    (rest : list string) (lines : list (list value)) (df : DataFrame)
    (fn qc : Series) (good_files : list value) :
  glob W (folder ++ "/**full_output*.csv*") = path :: rest ->
  open_csv W path = Some lines ->
  read_csv lines (SkipList [0; 2]%nat) false None = Ok df ->
  getitem df "filename" = Ok fn ->
  getitem df "qc_co2_flux" = Ok qc ->
  outcome (get_good_files W folder) = Ok good_files ->
  length good_files = length (filter eq0 (s_values qc)) /\
  (length good_files <= nrows df)%nat.
Proof.
  intros G O R Hfn Hqc H.
  pose proof (read_csv_wf _ _ _ _ _ R) as Hwf.
  pose proof (getitem_wf _ _ _ Hwf Hfn) as Wfn.
  pose proof (getitem_wf _ _ _ Hwf Hqc) as Wqc.
  pose proof (getitem_inv _ _ _ Hfn) as [Ifn _].
  pose proof (getitem_inv _ _ _ Hqc) as [Iqc _].
  unfold wf_series in Wfn, Wqc. rewrite Ifn in Wfn. rewrite Iqc in Wqc.
  rewrite (get_good_files_found _ _ _ _ _ G O), R in H.
  rewrite (query_eq0_getitem _ _ _ Hqc), getitem_select_rows, Hfn in H.
  injection H as <-. simpl s_values.
  rewrite (filter_mask_map_length eq0) by congruence.
  split; [reflexivity |].
  unfold nrows. rewrite <- Wqc. apply filter_length_le.
Qed.

Lemma get_good_files_count_witness :
  length [VStr "MOFO_20190723_1200.dat"] =
  length (filter eq0 [VNum 0; VNum 1]).
Proof.
  exact (proj1 (get_good_files_count Dup.world Dup.folder
                  Demo.full_output_path [] Dup.full_output_lines Dup.table
                  (mkSeries (index Dup.table)
                     [ VStr "MOFO_20190723_1200.dat";
                       VStr "MOFO_20190723_1200.dat" ])
                  (mkSeries (index Dup.table) [VNum 0; VNum 1])
                  [VStr "MOFO_20190723_1200.dat"]
                  eq_refl eq_refl eq_refl eq_refl eq_refl eq_refl)).
Defined.

(** ** The plot functions: saving, short fits, failures *)

Lemma plot_spectras_completes W df outfile :
  outcome (plot_spectras W df outfile) = Ok tt ->
  exists med smoothed,
    median_axis1 df = Ok med /\
    lowess W med (index df) 0.01%float 0 = Ok smoothed /\
    trace (plot_spectras W df outfile) =
    ([ EvFigure 1;
       EvPlot (PlotSeries (index df) med) "k." (Some 0.05%float)
              "median data with QC flag 0";
       EvLowess med (index df) 0.01%float 0;
       EvPlot (PlotXY (map fst (skipn 40 smoothed))
                      (map snd (skipn 40 smoothed)))
              "b" None "lowess fit" ] ++
     tweak_calls "spectra (T)" ++ save_calls outfile)%list.
Proof.
  rewrite plot_spectras_run.
  destruct (median_axis1 df) as [med | e]; [| discriminate].
  destruct (lowess W med (index df) 0.01%float 0) as [sm | e] eqn:Hl;
    [| discriminate].
  cbv zeta. cbn [trace outcome fst snd]. intros H.
  exists med, sm. rewrite (finish_ok _ _ _ _ H).
  split; [reflexivity |]. split; [exact Hl | reflexivity].
Qed.

Lemma plot_cospectras_completes W df outfile :
  outcome (plot_cospectras W df outfile) = Ok tt ->
  exists med smoothed,
    median_axis1 df = Ok med /\
    lowess W med (index df) 0.05%float 0 = Ok smoothed /\
    trace (plot_cospectras W df outfile) =
    ([ EvFigure 2;
       EvPlot (PlotSeries (index df) med) "k." (Some 0.05%float)
              "median data with QC flag 0";
       EvLowess med (index df) 0.05%float 0;
       EvPlot (PlotXY (map fst smoothed) (map snd smoothed))
              "b" None "lowess fit";
       EvPlot (PlotXY (linspace 0.2 5 50)
                      (map (ideal_slope W) (linspace 0.2 5 50)))
              "r--" None "-4/3 slope" ] ++
     tweak_calls "cospectra (w/T)" ++ save_calls outfile)%list.
Proof.
  rewrite plot_cospectras_run.
  destruct (median_axis1 df) as [med | e]; [| discriminate].
  destruct (lowess W med (index df) 0.05%float 0) as [sm | e] eqn:Hl;
    [| discriminate].
  cbv zeta. cbn [trace outcome fst snd]. intros H.
  exists med, sm. rewrite (finish_ok _ _ _ _ H).
  split; [reflexivity |]. split; [exact Hl | reflexivity].
Qed.

Lemma plot_spectras_saves W df outfile o dpi bbox :
  In (EvSavefig o dpi bbox) (trace (plot_spectras W df outfile)) ->
  outfile = Some o /\ o <> "" /\ dpi = 300%nat /\ bbox = "tight".
Proof.
  rewrite plot_spectras_run. intros Hin.
  destruct (median_axis1 df) as [med | e];
    [destruct (lowess W med (index df) 0.01%float 0) as [sm | e] |];
    cbv zeta in Hin; cbn [trace fst] in Hin.
  - apply in_app_or in Hin as [Hin | Hin]; [event_cases Hin |].
    now apply finish_savefig in Hin.
  - event_cases Hin.
  - event_cases Hin.
Qed.

Lemma plot_cospectras_saves W df outfile o dpi bbox :
  In (EvSavefig o dpi bbox) (trace (plot_cospectras W df outfile)) ->
  outfile = Some o /\ o <> "" /\ dpi = 300%nat /\ bbox = "tight".
Proof.
  rewrite plot_cospectras_run. intros Hin.
  destruct (median_axis1 df) as [med | e];
    [destruct (lowess W med (index df) 0.05%float 0) as [sm | e] |];
    cbv zeta in Hin; cbn [trace fst] in Hin.
  - apply in_app_or in Hin as [Hin | Hin]; [event_cases Hin |].
    now apply finish_savefig in Hin.
  - event_cases Hin.
  - event_cases Hin.
Qed.

Lemma no_savefig_before_saving (drawn : list event) (ylabel : string) :
  (forall e, In e drawn -> is_styling e = false) ->
  forall o d b, ~ In (EvSavefig o d b) (drawn ++ tweak_calls ylabel)%list.
Proof.
  intros Hd o d b Hin. apply in_app_or in Hin as [Hin | Hin].
  - apply Hd in Hin. discriminate.
  - event_cases Hin.
Qed.

(** A matplotlib that fails to write the file: [savefig] is called, and
    the exception leaves the function. *)
Example savefig_may_raise :
  plot_spectras NoWrite.world Demo.good_spectras (Some "plots/spectra.png") =
  ([ EvFigure 1;
     EvPlot (PlotSeries [VNum 0.1; VNum 0.4] [2.5; 2.5]%float) "k."
            (Some 0.05%float) "median data with QC flag 0";
     EvLowess [2.5; 2.5]%float [VNum 0.1; VNum 0.4] 0.01%float 0;
     EvPlot (PlotXY [] []) "b" None "lowess fit";
     EvXscale "log"; EvYscale "log"; EvXlabel "f (Hz)";
     EvYlabel "spectra (T)"; EvLegend; EvTightLayout;
     EvSavefig "plots/spectra.png" 300 "tight" ],
   Raise FileNotFoundError).
Proof. vm_compute. reflexivity. Qed.

(** A matplotlib that cannot lay out an empty figure: on a table without
    rows both curves are drawn, empty, and [tight_layout] raises. *)
Example empty_table_may_raise_in_layout :
  plot_spectras NoLayout.world empty_frame None =
  ([ EvFigure 1;
     EvPlot (PlotSeries [] []) "k." (Some 0.05%float)
            "median data with QC flag 0";
     EvLowess [] [] 0.01%float 0;
     EvPlot (PlotXY [] []) "b" None "lowess fit";
     EvXscale "log"; EvYscale "log"; EvXlabel "f (Hz)";
     EvYlabel "spectra (T)"; EvLegend; EvTightLayout ],
   Raise ValueError).
Proof. vm_compute. reflexivity. Qed.

(** X10.  A plot function saves its figure only when it is given a
    non-empty [outfile], and then to that path, at 300 dpi with a tight
    bounding box; with no [outfile], or the empty string, [savefig] is not
    called.  A run with a non-empty [outfile] that completes has called
    [savefig] once, as the last thing it did.  (Whether [savefig] itself
    succeeds is up to matplotlib: a call that raises ends the run.) *)
Theorem figure_saved_as_asked (W : World) (df : DataFrame)
    (outfile : option string) :
  (forall o dpi bbox,
     In (EvSavefig o dpi bbox) (trace (plot_spectras W df outfile)) ->
     outfile = Some o /\ o <> "" /\ dpi = 300%nat /\ bbox = "tight") /\
  (forall o dpi bbox,
     In (EvSavefig o dpi bbox) (trace (plot_cospectras W df outfile)) ->
     outfile = Some o /\ o <> "" /\ dpi = 300%nat /\ bbox = "tight") /\
  (forall o,
     outfile = Some o -> o <> "" ->
     outcome (plot_spectras W df outfile) = Ok tt ->
     exists t,
       trace (plot_spectras W df outfile) =
         (t ++ [EvSavefig o 300 "tight"])%list /\
       forall o' dpi bbox, ~ In (EvSavefig o' dpi bbox) t) /\
  (forall o,
     outfile = Some o -> o <> "" ->
     outcome (plot_cospectras W df outfile) = Ok tt ->
     exists t,
       trace (plot_cospectras W df outfile) =
         (t ++ [EvSavefig o 300 "tight"])%list /\
       forall o' dpi bbox, ~ In (EvSavefig o' dpi bbox) t).
Proof.
  split; [intros o dpi bbox; apply plot_spectras_saves |].
  split; [intros o dpi bbox; apply plot_cospectras_saves |].
  split.
  - intros o -> Hne Hok.
    destruct (plot_spectras_completes _ _ _ Hok) as (med & sm & _ & _ & Ht).
    destruct o as [| c o]; [contradiction |].
    rewrite Ht. cbn [save_calls]. rewrite app_assoc.
    eexists. split; [reflexivity |].
    apply no_savefig_before_saving. intros e Hin.
    event_cases Hin; subst e; reflexivity.
  - intros o -> Hne Hok.
    destruct (plot_cospectras_completes _ _ _ Hok)
      as (med & sm & _ & _ & Ht).
    destruct o as [| c o]; [contradiction |].
    rewrite Ht. cbn [save_calls]. rewrite app_assoc.
    eexists. split; [reflexivity |].
    apply no_savefig_before_saving. intros e Hin.
    event_cases Hin; subst e; reflexivity.
Qed.

Lemma figure_saved_as_asked_witness :
  (exists t,
     trace (plot_spectras Demo.world Demo.good_spectras
              (Some "spectra.png")) =
       (t ++ [EvSavefig "spectra.png" 300 "tight"])%list /\
     forall o' dpi bbox, ~ In (EvSavefig o' dpi bbox) t) /\
  ~ In (EvSavefig "" 300 "tight")
       (trace (plot_spectras Demo.world Demo.good_spectras (Some ""))).
Proof.
  split.
  - destruct (figure_saved_as_asked Demo.world Demo.good_spectras
                (Some "spectra.png")) as (_ & _ & H & _).
    apply (H "spectra.png" eq_refl); [discriminate |].
    vm_compute. reflexivity.
  - intros H.
    destruct (figure_saved_as_asked Demo.world Demo.good_spectras (Some ""))
      as (Hs & _).
    destruct (Hs _ _ _ H) as (_ & Hne & _). now apply Hne.
Defined.

(** X12.  When the smoother returns 40 points or fewer, the slice
    [smoothed[40:]] is empty, not an error: [plot_spectras] draws a lowess
    line without any point and goes on to set the scale of the x axis. *)
Theorem short_fit_draws_empty_line (W : World) (df : DataFrame)
    (outfile : option string) (med : list float)
    (smoothed : list (float * float)) :
  median_axis1 df = Ok med ->
  lowess W med (index df) 0.01%float 0 = Ok smoothed ->
  (length smoothed <= 40)%nat ->
  exists t,
    trace (plot_spectras W df outfile) =
    EvFigure 1
    :: EvPlot (PlotSeries (index df) med) "k." (Some 0.05%float)
              "median data with QC flag 0"
    :: EvLowess med (index df) 0.01%float 0
    :: EvPlot (PlotXY [] []) "b" None "lowess fit"
    :: EvXscale "log" :: t.
Proof.
  intros Hm Hl Hlen. rewrite plot_spectras_run, Hm, Hl.
  rewrite (skipn_all2 smoothed) by assumption.
  cbv zeta. cbn [trace fst map].
  match goal with
  | |- context [finish W ?fig ?yl outfile] =>
      destruct (finish_starts W fig yl outfile) as (t & ->)
  end.
  now exists t.
Qed.

Lemma short_fit_draws_empty_line_witness :
  exists t,
    trace (plot_spectras Demo.world Demo.good_spectras None) =
    EvFigure 1
    :: EvPlot (PlotSeries (index Demo.good_spectras) [2.5; 2.5]%float) "k."
              (Some 0.05%float) "median data with QC flag 0"
    :: EvLowess [2.5; 2.5]%float (index Demo.good_spectras) 0.01%float 0
    :: EvPlot (PlotXY [] []) "b" None "lowess fit"
    :: EvXscale "log" :: t.
Proof.
  refine (short_fit_draws_empty_line Demo.world Demo.good_spectras
            None [2.5; 2.5]%float [(0.1, 2.5); (0.4, 2.5)]%float
            eq_refl eq_refl _).
  simpl. lia.
Defined.

(** X13.  When the medians cannot be taken, a plot function raises right
    after opening its figure; when the smoother raises, right after calling
    it; either way before any axis scale, label, legend, layout or saving.
    So one of these calls in a run means that the medians were taken and
    the smoother returned; and a run that completes has drawn its curves
    and then made all six calls that dress the figure, in the order of the
    code, and the saving if one was asked for. *)
Theorem plot_fails_before_styling (W : World) (df : DataFrame)
    (outfile : option string) :
  (forall e, median_axis1 df = Raise e ->
     plot_spectras W df outfile = ([EvFigure 1], Raise e) /\
     plot_cospectras W df outfile = ([EvFigure 2], Raise e)) /\
  (forall med e,
     median_axis1 df = Ok med ->
     lowess W med (index df) 0.01%float 0 = Raise e ->
     outcome (plot_spectras W df outfile) = Raise e /\
     forall ev, In ev (trace (plot_spectras W df outfile)) ->
                is_styling ev = false) /\
  (forall med e,
     median_axis1 df = Ok med ->
     lowess W med (index df) 0.05%float 0 = Raise e ->
     outcome (plot_cospectras W df outfile) = Raise e /\
     forall ev, In ev (trace (plot_cospectras W df outfile)) ->
                is_styling ev = false) /\
  (forall ev, In ev (trace (plot_spectras W df outfile)) ->
     is_styling ev = true ->
     exists med smoothed,
       median_axis1 df = Ok med /\
       lowess W med (index df) 0.01%float 0 = Ok smoothed) /\
  (forall ev, In ev (trace (plot_cospectras W df outfile)) ->
     is_styling ev = true ->
     exists med smoothed,
       median_axis1 df = Ok med /\
       lowess W med (index df) 0.05%float 0 = Ok smoothed) /\
  (outcome (plot_spectras W df outfile) = Ok tt ->
   exists med smoothed,
     median_axis1 df = Ok med /\
     lowess W med (index df) 0.01%float 0 = Ok smoothed /\
     trace (plot_spectras W df outfile) =
     ([ EvFigure 1;
        EvPlot (PlotSeries (index df) med) "k." (Some 0.05%float)
               "median data with QC flag 0";
        EvLowess med (index df) 0.01%float 0;
        EvPlot (PlotXY (map fst (skipn 40 smoothed))
                       (map snd (skipn 40 smoothed)))
               "b" None "lowess fit" ] ++
      tweak_calls "spectra (T)" ++ save_calls outfile)%list) /\
  (outcome (plot_cospectras W df outfile) = Ok tt ->
   exists med smoothed,
     median_axis1 df = Ok med /\
     lowess W med (index df) 0.05%float 0 = Ok smoothed /\
     trace (plot_cospectras W df outfile) =
     ([ EvFigure 2;
        EvPlot (PlotSeries (index df) med) "k." (Some 0.05%float)
               "median data with QC flag 0";
        EvLowess med (index df) 0.05%float 0;
        EvPlot (PlotXY (map fst smoothed) (map snd smoothed))
               "b" None "lowess fit";
        EvPlot (PlotXY (linspace 0.2 5 50)
                       (map (ideal_slope W) (linspace 0.2 5 50)))
               "r--" None "-4/3 slope" ] ++
      tweak_calls "cospectra (w/T)" ++ save_calls outfile)%list).
Proof.
  split; [| split; [| split; [| split; [| split; [| split]]]]].
  - intros e He. now rewrite plot_spectras_run, plot_cospectras_run, He.
  - intros med e Hm Hl. rewrite plot_spectras_run, Hm, Hl.
    split; [reflexivity |].
    intros ev Hin. event_cases Hin; subst ev; reflexivity.
  - intros med e Hm Hl. rewrite plot_cospectras_run, Hm, Hl.
    split; [reflexivity |].
    intros ev Hin. event_cases Hin; subst ev; reflexivity.
  - rewrite plot_spectras_run. intros ev Hin Hs.
    destruct (median_axis1 df) as [med | e];
      [destruct (lowess W med (index df) 0.01%float 0) as [sm | e] eqn:Hl |].
    + exists med, sm. split; [reflexivity | exact Hl].
    + event_cases Hin; subst ev; discriminate.
    + event_cases Hin; subst ev; discriminate.
  - rewrite plot_cospectras_run. intros ev Hin Hs.
    destruct (median_axis1 df) as [med | e];
      [destruct (lowess W med (index df) 0.05%float 0) as [sm | e] eqn:Hl |].
    + exists med, sm. split; [reflexivity | exact Hl].
    + event_cases Hin; subst ev; discriminate.
    + event_cases Hin; subst ev; discriminate.
  - apply plot_spectras_completes.
  - apply plot_cospectras_completes.
Qed.

Lemma plot_fails_before_styling_witness :
  (exists med smoothed,
     median_axis1 Demo.good_spectras = Ok med /\
     lowess Demo.world med (index Demo.good_spectras) 0.01%float 0 =
       Ok smoothed) /\
  exists med smoothed,
    median_axis1 Demo.good_cospectras = Ok med /\
    lowess Demo.world med (index Demo.good_cospectras) 0.05%float 0 =
      Ok smoothed /\
    trace (plot_cospectras Demo.world Demo.good_cospectras None) =
    ([ EvFigure 2;
       EvPlot (PlotSeries (index Demo.good_cospectras) med) "k."
              (Some 0.05%float) "median data with QC flag 0";
       EvLowess med (index Demo.good_cospectras) 0.05%float 0;
       EvPlot (PlotXY (map fst smoothed) (map snd smoothed))
              "b" None "lowess fit";
       EvPlot (PlotXY (linspace 0.2 5 50)
                      (map (ideal_slope Demo.world) (linspace 0.2 5 50)))
              "r--" None "-4/3 slope" ] ++
     tweak_calls "cospectra (w/T)" ++ save_calls None)%list.
Proof.
  split.
  - destruct (plot_fails_before_styling Demo.world Demo.good_spectras None)
      as (_ & _ & _ & H & _).
    apply (H (EvXscale "log")); [| reflexivity].
    vm_compute. do 4 right. left. reflexivity.
  - destruct (plot_fails_before_styling Demo.world Demo.good_cospectras
                None) as (_ & _ & _ & _ & _ & _ & H).
    apply H. vm_compute. reflexivity.
Defined.

(** ** [main]: what it shows and what it never does *)

Lemma file_event_quiet t e :
  forallb is_file_event t = true -> In e t ->
  e <> EvShow /\ forall o d b, e <> EvSavefig o d b.
Proof.
  intros Hf Hin. rewrite forallb_forall in Hf. specialize (Hf e Hin).
  split; [| intros o d b]; intros ->; discriminate.
Qed.

Lemma plot_spectras_quiet W df e :
  In e (trace (plot_spectras W df None)) ->
  e <> EvShow /\ forall o d b, e <> EvSavefig o d b.
Proof.
  intros Hin. split; [| intros o d b]; intros ->.
  - rewrite plot_spectras_run in Hin. plot_cases W Hin.
  - apply plot_spectras_saves in Hin as [Hin _]. discriminate.
Qed.

Lemma plot_cospectras_quiet W df e :
  In e (trace (plot_cospectras W df None)) ->
  e <> EvShow /\ forall o d b, e <> EvSavefig o d b.
Proof.
  intros Hin. split; [| intros o d b]; intros ->.
  - rewrite plot_cospectras_run in Hin. plot_cases W Hin.
  - apply plot_cospectras_saves in Hin as [Hin _]. discriminate.
Qed.

Lemma trace_pair {A : Type} (t : list event) (r : result A) :
  trace (t, r) = t.
Proof. reflexivity. Qed.

Lemma outcome_pair {A : Type} (t : list event) (r : result A) :
  outcome (t, r) = r.
Proof. reflexivity. Qed.

Lemma main_run W :
  main W =
  match outcome (get_good_files W ep_output) with
  | Raise e => (trace (get_good_files W ep_output), Raise e)
  | Ok good_files =>
      let t1 := trace (get_good_files W ep_output) in
      let t2 := trace (merge_good_files W good_files ep_output) in
      match outcome (merge_good_files W good_files ep_output) with
      | Raise e => ((t1 ++ t2)%list, Raise e)
      | Ok tables =>
          let t3 := trace (plot_spectras W (fst tables) None) in
          let t4 := trace (plot_cospectras W (snd tables) None) in
          match outcome (plot_spectras W (fst tables) None) with
          | Raise e => ((t1 ++ t2 ++ t3)%list, Raise e)
          | Ok _ =>
              match outcome (plot_cospectras W (snd tables) None) with
              | Raise e => ((t1 ++ t2 ++ t3 ++ t4)%list, Raise e)
              | Ok _ => ((t1 ++ t2 ++ t3 ++ t4 ++ [EvShow])%list, Ok tt)
              end
          end
      end
  end.
Proof.
  rewrite (surjective_pairing (main W)).
  change (fst (main W)) with (trace (main W)).
  change (snd (main W)) with (outcome (main W)).
  unfold main. rewrite trace_bind, outcome_bind.
  destruct (outcome (get_good_files W ep_output)) as [gf | e1];
    [| reflexivity].
  rewrite trace_bind, outcome_bind.
  destruct (outcome (merge_good_files W gf ep_output)) as [tables | e2];
    [| reflexivity].
  rewrite trace_bind, outcome_bind.
  destruct (outcome (plot_spectras W (fst tables) None)) as [u3 | e3];
    [| reflexivity].
  rewrite trace_bind, outcome_bind.
  destruct (outcome (plot_cospectras W (snd tables) None)) as [u4 | e4];
    reflexivity.
Qed.

(** X11.  [main] never saves a figure, since it calls both plot functions
    without an [outfile]; and it shows the figures exactly when every step
    before has completed, once, as the last thing it does. *)
Theorem main_never_saves_and_shows_last (W : World) :
  (forall o dpi bbox, ~ In (EvSavefig o dpi bbox) (trace (main W))) /\
  (In EvShow (trace (main W)) <-> outcome (main W) = Ok tt) /\
  (outcome (main W) = Ok tt ->
   exists t, trace (main W) = (t ++ [EvShow])%list /\ ~ In EvShow t).
Proof.
  rewrite main_run. cbv zeta.
  pose proof (fun e =>
                file_event_quiet _ e
                  (get_good_files_file_events W ep_output)) as Q1.
  destruct (outcome (get_good_files W ep_output)) as [gf | e1].
  2:{ rewrite !trace_pair, !outcome_pair. repeat split.
      - intros o d b Hin. now apply (proj2 (Q1 _ Hin) o d b).
      - intros Hin. now destruct (proj1 (Q1 _ Hin)).
      - discriminate.
      - discriminate. }
  pose proof (fun e =>
                file_event_quiet _ e
                  (merge_loop_file_events W ep_output gf
                     (empty_frame, empty_frame))) as Q2.
  fold (merge_good_files W gf ep_output) in Q2.
  destruct (outcome (merge_good_files W gf ep_output)) as [tables | e2].
  2:{ rewrite !trace_pair, !outcome_pair. repeat split.
      - intros o d b Hin. apply in_app_or in Hin as [Hin | Hin].
        + now apply (proj2 (Q1 _ Hin) o d b).
        + now apply (proj2 (Q2 _ Hin) o d b).
      - intros Hin. apply in_app_or in Hin as [Hin | Hin].
        + now destruct (proj1 (Q1 _ Hin)).
        + now destruct (proj1 (Q2 _ Hin)).
      - discriminate.
      - discriminate. }
  pose proof (plot_spectras_quiet W (fst tables)) as Q3.
  pose proof (plot_cospectras_quiet W (snd tables)) as Q4.
  assert (Quiet : forall e,
            In e (trace (get_good_files W ep_output) ++
                  trace (merge_good_files W gf ep_output) ++
                  trace (plot_spectras W (fst tables) None) ++
                  trace (plot_cospectras W (snd tables) None))%list ->
            e <> EvShow /\ forall o d b, e <> EvSavefig o d b).
  { intros e Hin.
    apply in_app_or in Hin as [Hin | Hin]; [now apply Q1 |].
    apply in_app_or in Hin as [Hin | Hin]; [now apply Q2 |].
    apply in_app_or in Hin as [Hin | Hin]; [now apply Q3 | now apply Q4]. }
  assert (Quiet3 : forall e,
            In e (trace (get_good_files W ep_output) ++
                  trace (merge_good_files W gf ep_output) ++
                  trace (plot_spectras W (fst tables) None))%list ->
            e <> EvShow /\ forall o d b, e <> EvSavefig o d b).
  { intros e Hin.
    apply in_app_or in Hin as [Hin | Hin]; [now apply Q1 |].
    apply in_app_or in Hin as [Hin | Hin]; [now apply Q2 | now apply Q3]. }
  destruct (outcome (plot_spectras W (fst tables) None)) as [u3 | e3].
  2:{ rewrite !trace_pair, !outcome_pair. repeat split.
      - intros o d b Hin. now apply (proj2 (Quiet3 _ Hin) o d b).
      - intros Hin. now destruct (proj1 (Quiet3 _ Hin)).
      - discriminate.
      - discriminate. }
  destruct (outcome (plot_cospectras W (snd tables) None)) as [u4 | e4].
  2:{ rewrite !trace_pair, !outcome_pair. repeat split.
      - intros o d b Hin. now apply (proj2 (Quiet _ Hin) o d b).
      - intros Hin. now destruct (proj1 (Quiet _ Hin)).
      - discriminate.
      - discriminate. }
  rewrite !trace_pair, !outcome_pair, !app_assoc.
  repeat split.
  - intros o d b Hin. apply in_app_or in Hin as [Hin | [Hin | []]];
      [| discriminate].
    rewrite <- !app_assoc in Hin. now apply (proj2 (Quiet _ Hin) o d b).
  - intros _. apply in_or_app. right. now left.
  - intros _. eexists. split; [reflexivity |].
    rewrite <- !app_assoc. intros Hin. now destruct (proj1 (Quiet _ Hin)).
Qed.

Lemma main_never_saves_and_shows_last_witness :
  In EvShow (trace (main Demo.world)).
Proof.
  apply (proj1 (proj2 (main_never_saves_and_shows_last Demo.world))).
  vm_compute. reflexivity.
Defined.

(** ** The pattern of an arbitrary name *)

Lemma length_substring_le n : forall m s,
  (String.length (substring n m s) <= m)%nat.
Proof.
  induction n as [| n IHn].
  - induction m as [| m IHm]; intros [| c s]; simpl; try lia.
    specialize (IHm s). lia.
  - intros m [| c s]; simpl; [lia | apply IHn].
Qed.

(** X14.  Slicing never fails, whatever the name: the pattern always holds
    the hyphen and at most twelve characters of the name, and a name of
    four characters or fewer gives the bare pattern "-", so that the search
    is then for any csv file with a hyphen in its name. *)
Theorem pattern_of_any_name (folder f : string) :
  (1 <= String.length (pattern_of f) <= 13)%nat /\
  ((String.length f <= 4)%nat ->
   pattern_of f = "-" /\
   cospectra_glob folder (pattern_of f) =
   folder ++ "/eddypro_full_cospectra/*-*.csv").
Proof.
  split.
  - unfold pattern_of, py_slice. rewrite !length_append.
    pose proof (length_substring_le
                  (Z.to_nat (adjust_index (Z.of_nat (String.length f)) 5))
                  (Z.to_nat (adjust_index (Z.of_nat (String.length f)) 13 -
                             adjust_index (Z.of_nat (String.length f)) 5))
                  f) as H1.
    pose proof (length_substring_le
                  (Z.to_nat (adjust_index (Z.of_nat (String.length f)) (-8)))
                  (Z.to_nat
                     (adjust_index (Z.of_nat (String.length f)) (-4) -
                      adjust_index (Z.of_nat (String.length f)) (-8)))
                  f) as H2.
    unfold adjust_index in *.
    change (5 <? 0)%Z with false in *. change (13 <? 0)%Z with false in *.
    change (-8 <? 0)%Z with true in *. change (-4 <? 0)%Z with true in *.
    cbv iota in *. cbv zeta.
    change (String.length "-") with 1%nat. lia.
  - intros Hlen.
    assert (E : pattern_of f = "-").
    { do 5 (destruct f as [| ? f]; [reflexivity |]). simpl in Hlen. lia. }
    split; [exact E |]. unfold cospectra_glob. now rewrite E.
Qed.

Lemma pattern_of_any_name_witness :
  pattern_of "a.d" = "-".
Proof.
  refine (proj1 (proj2 (pattern_of_any_name "" "a.d") _)). simpl. lia.
Defined.
